(** * js-ecs: the world registry and its query caches (src/ecs.js)

    A shallow embedding of [ECS], [Entity] and [Query].

    Modelling conventions.
    - A JS object used as a table ([ecs.entities], [ecs.components],
      [entity.components], [query.entities], ...) is a finite map keyed by
      strings, looked up by own key.  The code's [in] and property reads
      also see what a plain object inherits from [Object.prototype], a
      class name can shadow a member of [Entity] when [addComponent]
      writes [this[name]], and a key of a property bag can shadow a member
      of the component instance.  The model agrees with the code on the
      inputs that [ordinary] (below) admits; a statement that depends on
      this carries [ordinary] among its hypotheses.
    - [ecs.queries] is kept as an association list in insertion order: it
      is iterated by [removeComponent], and an exception thrown in the
      middle of that loop leaves the later queries untouched.  Insertion
      order is the order of [for ... in] for keys that are not array
      indices; [ordinary] admits no logic list whose key is one.
    - Objects on the heap are named by the key under which the world holds
      them: an entity by its id, a registered component class by its name.
      One world is modelled.
    - Exceptions are completions; the world reached when the exception
      leaves the method is part of the result, so a caller that catches it
      can go on.
    - [console.error], the hooks ([onRegistration], [onAttached], with the
      bodies of the base classes) and the events published on [ecs.events]
      are recorded in a trace. *)

From Stdlib Require Import String Ascii ZArith.
From stdpp Require Import base option list strings gmap fin_maps fin_sets.

Local Open Scope string_scope.

(** ** Data model *)

(** [crypto.randomUUID()] strings. *)
Abbreviation EntityId := string (only parsing).

(** The property bag handed to a component constructor. *)
Abbreviation Props := (gmap string Z) (only parsing).

(** A component instance: [Object.assign(this, properties)] and the
    back-reference written by [onAttached]. *)
Module Component.
Record t := mk {
  class_name : string;          (* component.constructor.name *)
  fields : Props;
  entity : option EntityId
}.
End Component.

Module Entity.
Record t := mk {
  id : EntityId;
  root : gmap string Component.t;        (* this[name] *)
  components : gmap string Component.t   (* this.components[name] *)
}.
End Entity.

(** A registered component class with its static [entities] table. *)
Module ComponentClass.
Record t := mk {
  name : string;
  entities : gmap EntityId bool
}.
End ComponentClass.

Module System.
Record t := mk { class_name : string }.
End System.

(** What [query.entities] holds under an id: [true], or the entity object
    (named by its id). *)
Inductive CacheVal :=
  | VTrue
  | VEntity (id : EntityId).

Module Query.
Record t := mk {
  components : list (option string);  (* class references; None = undefined *)
  component_names : list string;
  logic : list string;
  entities : gmap EntityId CacheVal
}.
End Query.

Inductive Effect :=
  | ConsoleError (msg : string)
  | OnRegistration (system_name : string)
  | OnAttached (component_name : string) (id : EntityId)
  | ComponentAdded (id : EntityId) (component_name : string).

Module ECS.
Record t := mk {
  entities : gmap EntityId Entity.t;
  systems : gmap string System.t;
  components : gmap string ComponentClass.t;
  queries : list (string * Query.t);
  trace : list Effect
}.
End ECS.

#[global] Instance CacheVal_eq_dec : EqDecision CacheVal.
Proof. solve_decision. Defined.
#[global] Instance Effect_eq_dec : EqDecision Effect.
Proof. solve_decision. Defined.

(** ** Completions *)

Inductive Exception :=
  | Error (msg : string)
  | TypeError (msg : string)
  | ReferenceError (msg : string)
  | NoSuchObject (id : EntityId).  (* model only: a method called on an
                                      entity the world does not hold *)

Inductive Completion (A : Type) :=
  | Normal (a : A)
  | Throw (e : Exception).
Arguments Normal {A} a.
Arguments Throw {A} e.

Definition M (A : Type) : Type := ECS.t → Completion A * ECS.t.

#[global] Instance M_ret : MRet M := λ A a w, (Normal a, w).
#[global] Instance M_bind : MBind M :=
  λ A B f m w, match m w with
               | (Normal a, w') => f a w'
               | (Throw e, w') => (Throw e, w')
               end.

Definition throw {A} (e : Exception) : M A := λ w, (Throw e, w).
Definition get : M ECS.t := λ w, (Normal w, w).
Definition modify (f : ECS.t → ECS.t) : M unit := λ w, (Normal tt, f w).

(** ** Field updates *)

Definition set_entities (f : gmap EntityId Entity.t → gmap EntityId Entity.t) (w : ECS.t) : ECS.t :=
  ECS.mk (f (ECS.entities w)) (ECS.systems w) (ECS.components w) (ECS.queries w) (ECS.trace w).
Definition set_systems (f : gmap string System.t → gmap string System.t) (w : ECS.t) : ECS.t :=
  ECS.mk (ECS.entities w) (f (ECS.systems w)) (ECS.components w) (ECS.queries w) (ECS.trace w).
Definition set_components (f : gmap string ComponentClass.t → gmap string ComponentClass.t) (w : ECS.t) : ECS.t :=
  ECS.mk (ECS.entities w) (ECS.systems w) (f (ECS.components w)) (ECS.queries w) (ECS.trace w).
Definition set_queries (f : list (string * Query.t) → list (string * Query.t)) (w : ECS.t) : ECS.t :=
  ECS.mk (ECS.entities w) (ECS.systems w) (ECS.components w) (f (ECS.queries w)) (ECS.trace w).
Definition emit (ev : Effect) (w : ECS.t) : ECS.t :=
  ECS.mk (ECS.entities w) (ECS.systems w) (ECS.components w) (ECS.queries w) (ECS.trace w ++ [ev]).

Definition set_cache (m : gmap EntityId CacheVal) (q : Query.t) : Query.t :=
  Query.mk (Query.components q) (Query.component_names q) (Query.logic q) m.

Definition console_error (msg : string) : M unit := modify (emit (ConsoleError msg)).

(** [k in obj] on a table, for a key the table does not inherit (see
    [object_prototype_keys]). *)
Definition js_in {V} (k : string) (obj : gmap string V) : bool :=
  bool_decide (is_Some (obj !! k)).

(** [ecs.queries], in insertion order. *)
Fixpoint assoc (k : string) (qs : list (string * Query.t)) : option Query.t :=
  match qs with
  | [] => None
  | (k', q) :: rest => if String.eqb k k' then Some q else assoc k rest
  end.

Fixpoint assoc_set (k : string) (q : Query.t) (qs : list (string * Query.t))
  : list (string * Query.t) :=
  match qs with
  | [] => [(k, q)]
  | (k', q') :: rest =>
      if String.eqb k k' then (k, q) :: rest else (k', q') :: assoc_set k q rest
  end.

(** [k in this.queries], for a key the table does not inherit. *)
Definition in_queries (k : string) (qs : list (string * Query.t)) : bool :=
  bool_decide (is_Some (assoc k qs)).

(** An array used as a property key is converted by [Array.prototype.join]. *)
Definition logic_key (logic : list string) : string := String.concat "," logic.

(** [array.includes(x)] on an array of strings. *)
Definition includes (names : list string) (x : string) : bool :=
  bool_decide (x ∈ names).

(** The keys a [for ... in] loop visits.  The order is the map's, not JS
    insertion order: the loops below that walk a table compute a count or
    a set, which the order does not change. *)
Definition keys {V} (obj : gmap string V) : list string := (map_to_list obj).*1.

(** ** [new ECS()] *)

Definition new_ECS : ECS.t := ECS.mk ∅ ∅ ∅ [] [].

(** ** [ECS.registerSystem], [ECS.registerComponent], [ECS.addEntity] *)

Definition registerSystem (system_class : string) : M unit :=
  let system := System.mk system_class in          (* new system_class(this) *)
  let system_name := System.class_name system in
  w ← get;
  if js_in system_name (ECS.systems w) then
    console_error ("System " +:+ system_name +:+ " already registered with ECS")
  else
    modify (set_systems <[system_name := system]>);;
    modify (emit (OnRegistration system_name)).

Definition addEntity (entity : Entity.t) : M unit :=
  modify (set_entities <[Entity.id entity := entity]>).

Definition registerComponent (component_class : string) : M unit :=
  w ← get;
  if js_in component_class (ECS.components w) then
    console_error ("Component " +:+ component_class +:+ " already registered with ECS")
  else
    modify (set_components <[component_class := ComponentClass.mk component_class ∅]>).

(** [new Entity(ecs)], the id drawn by [crypto.randomUUID()] given. *)
Definition new_Entity (id : EntityId) : M unit :=
  addEntity (Entity.mk id ∅ ∅).

(** ** [Query] *)

Definition startsWith_bang (s : string) : bool :=
  match s with
  | String c _ => Ascii.eqb c "!"
  | EmptyString => false
  end.

Definition slice1 (s : string) : string :=
  match s with
  | String _ rest => rest
  | EmptyString => EmptyString
  end.

(** The name a logic token is compiled to. *)
Definition token_name (tok : string) : string :=
  if startsWith_bang tok then slice1 tok else tok.

(** [ecs.components[component_name]]: the class object, or undefined, for
    a name [ecs.components] does not inherit. *)
Definition class_ref (w : ECS.t) (component_name : string) : option string :=
  if js_in component_name (ECS.components w) then Some component_name else None.

(** The loop of the constructor, pushing onto [components] and
    [component_names]. *)
Fixpoint compile (w : ECS.t) (logic : list string)
    (components : list (option string)) (component_names : list string)
  : list (option string) * list string :=
  match logic with
  | [] => (components, component_names)
  | tok :: rest =>
      let component_name := token_name tok in
      compile w rest (components ++ [class_ref w component_name])
                     (component_names ++ [component_name])
  end.

(** [if (x)] on what a presence table returns. *)
Definition truthy (v : option bool) : bool :=
  match v with
  | Some b => b
  | None => false
  end.

(** Inner loop of [refresh]: one entity against [this.components]. *)
Fixpoint count_present (w : ECS.t) (components : list (option string))
    (entity_id : EntityId) (cur_match_count : nat) : Completion nat :=
  match components with
  | [] => Normal cur_match_count
  | component :: rest =>
      match component ≫= (λ n, ECS.components w !! n) with
      | None => Throw (TypeError "Cannot read properties of undefined (reading 'entities')")
      | Some cls =>
          count_present w rest entity_id
            (if truthy (ComponentClass.entities cls !! entity_id)
             then S cur_match_count else cur_match_count)
      end
  end.

(** Outer loop of [refresh], over the ids still to visit. *)
Fixpoint refresh_loop (w : ECS.t) (components : list (option string))
    (ids : list EntityId) (entities : gmap EntityId CacheVal)
  : Completion unit * gmap EntityId CacheVal :=
  match ids with
  | [] => (Normal tt, entities)
  | entity_id :: rest =>
      match count_present w components entity_id 0 with
      | Throw e => (Throw e, entities)
      | Normal cur_match_count =>
          refresh_loop w components rest
            (if Nat.eqb cur_match_count (length components)
             then <[entity_id := VTrue]> entities else entities)
      end
  end.

Definition refresh (w : ECS.t) (q : Query.t) : Completion unit * Query.t :=
  let '(c, entities) :=
    refresh_loop w (Query.components q) (keys (ECS.entities w)) ∅ in
  (c, set_cache entities q).

Definition componentAddedToEntity (q : Query.t) (entity : Entity.t) : Query.t :=
  let num_matches_required := length (Query.components q) in
  let cur_match_count :=
    foldl (λ count property,
             if includes (Query.component_names q) property then S count else count)
          0 (keys (Entity.components entity)) in
  if Nat.eqb cur_match_count num_matches_required
  then set_cache (<[Entity.id entity := VEntity (Entity.id entity)]> (Query.entities q)) q
  else q.

(** [new Query(ecs, logic)].  The listener the constructor installs on
    [ecs.events] is the query itself: [dispatch_component_added] below runs
    [componentAddedToEntity] on every query the world holds.  (A query
    whose constructor throws is reachable from its listener only, and the
    listener writes to that query only.) *)
Definition new_Query (w : ECS.t) (logic : list string) : Completion unit * Query.t :=
  let '(components, component_names) := compile w logic [] [] in
  refresh w (Query.mk components component_names logic ∅).

Definition dispatch_component_added (entity : Entity.t) (component_name : string) : M unit :=
  modify (emit (ComponentAdded (Entity.id entity) component_name));;
  modify (set_queries (map (λ kq, (kq.1, componentAddedToEntity kq.2 entity)))).

(** ** [ECS.createQuery], [ECS.query] *)

Definition createQuery (logic : list string) : M bool :=
  w ← get;
  let key := logic_key logic in
  if in_queries key (ECS.queries w) then
    console_error ("Query " +:+ key +:+ " already exists in ECS");;
    mret false
  else
    match new_Query w logic with
    | (Throw e, _) => throw e
    | (Normal _, q) =>
        modify (set_queries (assoc_set key q));;
        w1 ← get;
        match refresh w1 q with
        | (c, q') =>
            modify (set_queries (assoc_set key q'));;
            match c with
            | Throw e => throw e
            | Normal _ => mret true
            end
        end
    end.

Definition cached (key : string) (w : ECS.t) : gmap EntityId CacheVal :=
  default ∅ (Query.entities <$> assoc key (ECS.queries w)).

Definition query (logic : list string) : M (gmap EntityId CacheVal) :=
  w ← get;
  let key := logic_key logic in
  if in_queries key (ECS.queries w) then
    mret (cached key w)
  else
    created ← createQuery logic;
    if created : bool then
      w1 ← get;
      mret (cached key w1)
    else
      console_error ("Query " +:+ key +:+ " not found in ECS - creation failed");;
      mret ∅.

(** ** [Entity.addComponent], [Entity.removeComponent] *)

Definition mark_present (component_name : string) (id : EntityId)
    (cs : gmap string ComponentClass.t) : gmap string ComponentClass.t :=
  alter (λ cls, ComponentClass.mk (ComponentClass.name cls)
                  (<[id := true]> (ComponentClass.entities cls)))
        component_name cs.

Definition mark_absent (component_name : string) (id : EntityId)
    (cs : gmap string ComponentClass.t) : gmap string ComponentClass.t :=
  alter (λ cls, ComponentClass.mk (ComponentClass.name cls)
                  (delete id (ComponentClass.entities cls)))
        component_name cs.

(** The instance is shared by [this[name]] and [this.components[name]], so
    the back-reference written by [onAttached] shows through both; it is
    set here before the instance is stored.  This is the code for a class
    name that is an [ordinary_class] and a bag that is an [ordinary_bag]:
    the write to [this[name]] then touches no field or method of the
    entity, and no key of the bag replaces [constructor], [onAttached] or
    [entity] on the instance. *)
Definition addComponent (this : EntityId) (component_class : string)
    (properties : Props) : M unit :=
  w ← get;
  match ECS.entities w !! this with
  | None => throw (NoSuchObject this)
  | Some self =>
      let component_name := component_class in   (* component.constructor.name *)
      if negb (js_in component_name (ECS.components w)) then
        throw (Error "Component [object Object] not registered with ECS")
      else
        let component :=
          Component.mk component_class properties (Some (Entity.id self)) in
        let self' :=
          Entity.mk (Entity.id self)
                    (<[component_name := component]> (Entity.root self))
                    (<[component_name := component]> (Entity.components self)) in
        modify (set_entities <[this := self']>);;
        modify (set_components (mark_present component_name (Entity.id self)));;
        modify (emit (OnAttached component_name (Entity.id self)));;
        dispatch_component_added self' component_name
  end.

(** The loop of [removeComponent] over [ecs.queries]. *)
Fixpoint refresh_queries_using (w : ECS.t) (component_name : string)
    (qs : list (string * Query.t)) : Completion unit * list (string * Query.t) :=
  match qs with
  | [] => (Normal tt, [])
  | (query_name, q) :: rest =>
      if includes (Query.component_names q) component_name then
        match refresh w q with
        | (Throw e, q') => (Throw e, (query_name, q') :: rest)
        | (Normal _, q') =>
            let '(c, rest') := refresh_queries_using w component_name rest in
            (c, (query_name, q') :: rest')
        end
      else
        let '(c, rest') := refresh_queries_using w component_name rest in
        (c, (query_name, q) :: rest')
  end.

(** In the [else] branch the template literal reads [component_name], a
    [const] declared inside the [if] block: the identifier does not
    resolve, and evaluating the argument of [console.error] throws.  The
    test [name in this] is read as "the entity holds the name", which is
    what it is for an [ordinary_class]: it is also true for the fields and
    methods of the entity. *)
Definition removeComponent (this : EntityId) (component_class : string) : M unit :=
  w ← get;
  match ECS.entities w !! this with
  | None => throw (NoSuchObject this)
  | Some self =>
      if js_in component_class (Entity.root self) then
        let component_name := component_class in
        let self' :=
          Entity.mk (Entity.id self)
                    (delete component_name (Entity.root self))
                    (delete component_name (Entity.components self)) in
        modify (set_entities <[this := self']>);;
        w1 ← get;
        if js_in component_name (ECS.components w1) then
          modify (set_components (mark_absent component_name (Entity.id self)));;
          w2 ← get;
          match refresh_queries_using w2 component_name (ECS.queries w2) with
          | (c, qs) =>
              modify (set_queries (λ _, qs));;
              match c with
              | Throw e => throw e
              | Normal _ => mret tt
              end
          end
        else
          throw (TypeError "Cannot read properties of undefined (reading 'entities')")
      else
        throw (ReferenceError "component_name is not defined")
  end.

(** ** Scripts: sequences of calls on one world *)

Inductive Call :=
  | RegisterSystem (system_class : string)
  | RegisterComponent (component_class : string)
  | NewEntity (id : EntityId)
  | AddComponent (this : EntityId) (component_class : string) (properties : Props)
  | RemoveComponent (this : EntityId) (component_class : string)
  | CreateQuery (logic : list string)
  | RunQuery (logic : list string).

(** The world a call leaves behind, whether it returned or threw. *)
Definition exec (c : Call) (w : ECS.t) : ECS.t :=
  match c with
  | RegisterSystem s => (registerSystem s w).2
  | RegisterComponent k => (registerComponent k w).2
  | NewEntity id => (new_Entity id w).2
  | AddComponent this k props => (addComponent this k props w).2
  | RemoveComponent this k => (removeComponent this k w).2
  | CreateQuery logic => (createQuery logic w).2
  | RunQuery logic => (query logic w).2
  end.

Definition run (cs : list Call) (w : ECS.t) : ECS.t := foldl (λ w c, exec c w) w cs.

(** * Vocabulary of the properties *)

(** ** Matching *)

(** Whether a class reference is live in the world. *)
Definition resolves (w : ECS.t) (component : option string) : Prop :=
  is_Some (component ≫= (λ n, ECS.components w !! n)).

(** [component.entities[entity_id]] is truthy. *)
Definition present (w : ECS.t) (entity_id : EntityId) (component : option string) : bool :=
  truthy ((component ≫= (λ n, ECS.components w !! n))
            ≫= (λ cls, ComponentClass.entities cls !! entity_id)).

(** The cache a rebuild produces when no reference is undefined. *)
Definition rebuilt (w : ECS.t) (components : list (option string)) : gmap EntityId CacheVal :=
  (λ _, VTrue) <$>
    filter (λ ke, Forall (λ c, present w ke.1 c = true) components) (ECS.entities w).

(** The entity holds a component under every one of the names. *)
Definition holds_all (names : list string) (e : Entity.t) : Prop :=
  Forall (λ n, is_Some (Entity.components e !! n)) names.

(** Ids of the entities of the world that hold every named type. *)
Definition matching (w : ECS.t) (names : list string) : gset EntityId :=
  dom (filter (λ ke, holds_all names ke.2) (ECS.entities w)).

(** Ids of the entities holding a component of one type. *)
Definition holders (w : ECS.t) (component_name : string) : gset EntityId :=
  matching w [component_name].

(** A query's cache, as a set of ids, is exactly the AND-match. *)
Definition exact (w : ECS.t) (q : Query.t) : Prop :=
  dom (Query.entities q) = matching w (Query.component_names q).

(** I1 for one world. *)
Definition presence_exact (w : ECS.t) : Prop :=
  ∀ T cls, ECS.components w !! T = Some cls →
    dom (ComponentClass.entities cls) = holders w T.

(** ** Attach and detach, when they return *)

(** The entity after a successful attach. *)
Definition attach_to (self : Entity.t) (k : string) (props : Props) : Entity.t :=
  let component := Component.mk k props (Some (Entity.id self)) in
  Entity.mk (Entity.id self)
            (<[k := component]> (Entity.root self))
            (<[k := component]> (Entity.components self)).

(** The entity after a successful detach. *)
Definition detach_from (self : Entity.t) (k : string) : Entity.t :=
  Entity.mk (Entity.id self) (delete k (Entity.root self))
            (delete k (Entity.components self)).

(** The world after a successful attach: the statements of
    [addComponent] past the registration test, in order. *)
Definition attached (w : ECS.t) (this : EntityId) (self : Entity.t)
    (k : string) (props : Props) : ECS.t :=
  set_queries (map (λ kq, (kq.1, componentAddedToEntity kq.2 (attach_to self k props))))
    (emit (ComponentAdded (Entity.id self) k)
       (emit (OnAttached k (Entity.id self))
          (set_components (mark_present k (Entity.id self))
             (set_entities <[this := attach_to self k props]> w)))).

(** The world after the deletions of [removeComponent], before the loop
    over the queries. *)
Definition detached (w : ECS.t) (this : EntityId) (self : Entity.t) (k : string) : ECS.t :=
  set_components (mark_absent k (Entity.id self))
    (set_entities <[this := detach_from self k]> w).

(** What the loop of [removeComponent] does to one entry of [ecs.queries]
    when it runs to its end in world [w]. *)
Definition detach_rebuild (w : ECS.t) (T : string) (kq : string * Query.t)
  : string * Query.t :=
  (kq.1, if includes (Query.component_names kq.2) T
         then set_cache (rebuilt w (Query.components kq.2)) kq.2 else kq.2).

(** The world after a detach that returned. *)
Definition after_detach (w : ECS.t) (this : EntityId) (self : Entity.t) (T : string)
  : ECS.t :=
  set_queries (λ _, detach_rebuild (detached w this self T) T <$> ECS.queries w)
              (detached w this self T).

(** The query [new Query(ecs, logic)] leaves when it returns. *)
Definition compiled (w : ECS.t) (logic : list string) : Query.t :=
  Query.mk (class_ref w ∘ token_name <$> logic) (token_name <$> logic) logic
           (rebuilt w (class_ref w ∘ token_name <$> logic)).

(** Every token of the list names a registered class. *)
Definition all_registered (w : ECS.t) (logic : list string) : Prop :=
  Forall (λ tok, is_Some (ECS.components w !! token_name tok)) logic.

(** ** Scripts the properties range over *)

(** [crypto.randomUUID()] never returns an id twice: a script is legal when
    every [new Entity] draws an id the world does not hold yet. *)
Definition call_ok (c : Call) (w : ECS.t) : bool :=
  match c with
  | NewEntity id => negb (js_in id (ECS.entities w))
  | _ => true
  end.

Fixpoint legal (cs : list Call) (w : ECS.t) : bool :=
  match cs with
  | [] => true
  | c :: rest => call_ok c w && legal rest (exec c w)
  end.

(** A script is resolving when every logic list it hands to [createQuery]
    or [query] names registered classes only, at the time of the call. *)
Definition call_resolving (c : Call) (w : ECS.t) : bool :=
  match c with
  | CreateQuery logic | RunQuery logic =>
      forallb (λ tok, js_in (token_name tok) (ECS.components w)) logic
  | _ => true
  end.

Fixpoint resolving (cs : list Call) (w : ECS.t) : bool :=
  match cs with
  | [] => true
  | c :: rest => call_resolving c w && resolving rest (exec c w)
  end.

(** ** Well-formed worlds *)

(** The entity table and the presence tables agree: an entity is stored
    under its id, its two component tables are equal, it holds registered
    types only, and a presence table has [true] under exactly the ids of
    the holders. *)
Record wf_world (w : ECS.t) : Prop := {
  wf_id : ∀ k e, ECS.entities w !! k = Some e → Entity.id e = k;
  wf_root : ∀ k e, ECS.entities w !! k = Some e → Entity.root e = Entity.components e;
  wf_held : ∀ k e n, ECS.entities w !! k = Some e →
              is_Some (Entity.components e !! n) → is_Some (ECS.components w !! n);
  wf_true : ∀ n cls id v, ECS.components w !! n = Some cls →
              ComponentClass.entities cls !! id = Some v → v = true;
  wf_presence : ∀ n cls id, ECS.components w !! n = Some cls →
              (is_Some (ComponentClass.entities cls !! id)
               ↔ ∃ e, ECS.entities w !! id = Some e ∧ is_Some (Entity.components e !! n))
}.

(** A query compiled from registered names: every reference is the class of
    that name, and the cache is exact as soon as the names are pairwise
    distinct and there is at least one. *)
Record query_ok (w : ECS.t) (q : Query.t) : Prop := {
  ok_refs : Query.components q = Some <$> Query.component_names q;
  ok_registered : Forall (λ n, is_Some (ECS.components w !! n)) (Query.component_names q);
  ok_exact : NoDup (Query.component_names q) → Query.component_names q ≠ [] → exact w q
}.

Definition wf_queries (w : ECS.t) : Prop :=
  Forall (λ kq, query_ok w kq.2) (ECS.queries w).

(** ** Scenarios *)

(** Two types, two entities, one query, attaches and a detach. *)
Definition attach_detach_script : list Call :=
  [ RegisterComponent "Position"; RegisterComponent "Velocity";
    NewEntity "e1"; NewEntity "e2";
    AddComponent "e1" "Position" {[ "x" := 0%Z ]};
    AddComponent "e2" "Position" ∅;
    AddComponent "e2" "Velocity" ∅;
    RunQuery ["Position"; "Velocity"];
    RemoveComponent "e2" "Position";
    AddComponent "e1" "Velocity" ∅ ].

(** A query on a repeated name, then an attach. *)
Definition repeated_name_script : list Call :=
  [ RegisterComponent "A"; NewEntity "e1"; RunQuery ["A"; "A"];
    AddComponent "e1" "A" ∅ ].

(** A query compiled before its type is registered, then a detach. *)
Definition early_query_script : list Call :=
  [ RunQuery ["A"]; RegisterComponent "A"; NewEntity "e1"; NewEntity "e2";
    AddComponent "e1" "A" ∅; AddComponent "e2" "A" ∅;
    RemoveComponent "e2" "A" ].

(** A query compiled early, a sound one after it, then a detach. *)
Definition aborted_loop_script : list Call :=
  [ RunQuery ["A"; "Z"]; RegisterComponent "A"; RunQuery ["A"]; NewEntity "e1";
    AddComponent "e1" "A" ∅; RemoveComponent "e1" "A" ].

(** A query on the empty list, then an entity that never gets a component. *)
Definition empty_logic_script : list Call :=
  [ RegisterComponent "A"; RunQuery []; NewEntity "e1"; NewEntity "e2";
    AddComponent "e2" "A" ∅ ].

(** A registered type, an entity without components, a query. *)
Definition one_entity_script : list Call :=
  [ RegisterComponent "Position"; NewEntity "e1"; RunQuery ["Position"] ].

(** One entity, nothing registered. *)
Definition creation_throws_script : list Call := [ NewEntity "e1" ].

(** Whether [new Query] returns in this world for this list. *)
Definition constructible (w : ECS.t) (logic : list string) : Prop :=
  all_registered w logic ∨ ECS.entities w = ∅.

#[global] Instance constructible_dec w logic : Decision (constructible w logic).
Proof. unfold constructible, all_registered. apply _. Defined.

(** The two sides of the round trip. *)
Definition attach_once (this : EntityId) (T : string) (props : Props) : list Call :=
  [ AddComponent this T props ].

Definition attach_detach_attach (this : EntityId) (T : string) (props : Props)
  : list Call :=
  [ AddComponent this T props; RemoveComponent this T; AddComponent this T props ].

(** Another entity got the type through the attach path before. *)
Definition neighbour_script (logic : list string) : list Call :=
  [ RegisterComponent "T"; NewEntity "f"; NewEntity "e"; RunQuery logic;
    AddComponent "f" "T" ∅ ].

(** One entity holding the one registered type. *)
Definition holder_script : list Call :=
  [ RegisterComponent "A"; NewEntity "e1"; AddComponent "e1" "A" ∅ ].



(** ** Further invariants *)

(** Two states of one query object: the compiled lists are the same. *)
Definition same_query (q q' : Query.t) : Prop :=
  Query.components q' = Query.components q
  ∧ Query.component_names q' = Query.component_names q
  ∧ Query.logic q' = Query.logic q.

(** Every component stored on an entity points back to that entity and
    sits under the name of its class. *)
Definition wf_components (w : ECS.t) : Prop :=
  ∀ id e n c, ECS.entities w !! id = Some e → Entity.components e !! n = Some c →
    Component.entity c = Some id ∧ Component.class_name c = n.

(** Every key of every cache is the id of an entity of the world. *)
Definition caches_within (w : ECS.t) : Prop :=
  Forall (λ kq, dom (Query.entities kq.2) ⊆ dom (ECS.entities w)) (ECS.queries w).

(** A query compiled from registered names whose cache holds matching
    entities only. *)
Record query_sound (w : ECS.t) (q : Query.t) : Prop := {
  sound_refs : Query.components q = Some <$> Query.component_names q;
  sound_registered :
    Forall (λ n, is_Some (ECS.components w !! n)) (Query.component_names q);
  sound_sub : dom (Query.entities q) ⊆ matching w (Query.component_names q)
}.

Definition wf_sound (w : ECS.t) : Prop :=
  Forall (λ kq, query_sound w kq.2) (ECS.queries w).

(** Two registered types, two entities, each holding one of them. *)
Definition two_types_script : list Call :=
  [ RegisterComponent "A"; RegisterComponent "B"; NewEntity "e1"; NewEntity "e2";
    AddComponent "e1" "A" ∅; AddComponent "e2" "B" ∅ ].

(** A query on an unregistered name made while the world is empty, the
    registration after it, then an entity holding the type. *)
Definition late_registration_script : list Call :=
  [ RegisterComponent "A"; NewEntity "e1"; AddComponent "e1" "A" ∅ ].

(** The query on a repeated name, filled by the rebuild of a later detach. *)
Definition rebuilt_repeated_script : list Call :=
  [ RegisterComponent "A"; NewEntity "e1"; RunQuery ["A"; "A"];
    AddComponent "e1" "A" ∅; NewEntity "e2"; AddComponent "e2" "A" ∅;
    RemoveComponent "e2" "A" ].

(** The systems whose [onRegistration] hook ran, in the order of the runs. *)
Definition registrations (tr : list Effect) : list string :=
  omap (λ ev, match ev with OnRegistration s => Some s | _ => None end) tr.

(** ** Ordinary names and property bags *)

(** The properties every plain object inherits from [Object.prototype]:
    [k in {}] is true for them and [{}[k]] is not undefined. *)
Definition object_prototype_keys : list string :=
  [ "constructor"; "__defineGetter__"; "__defineSetter__"; "hasOwnProperty";
    "__lookupGetter__"; "__lookupSetter__"; "isPrototypeOf";
    "propertyIsEnumerable"; "toString"; "valueOf"; "__proto__";
    "toLocaleString" ].

(** The own fields of an entity and the members of [Entity.prototype]:
    [addComponent] would overwrite or shadow them with [this[name]], and
    [name in this] is true for them. *)
Definition entity_members : list string :=
  [ "id"; "components"; "ecs"; "constructor"; "addComponent"; "removeComponent" ].

(** The members of a component instance that [Object.assign] would shadow
    with a key of the bag, and the field [onAttached] writes. *)
Definition component_members : list string :=
  [ "constructor"; "onAttached"; "onDestroyed"; "onEvent"; "entity" ].

(** A key that a table does not inherit: an entity id, a system name, the
    key of a logic list. *)
Definition ordinary_key (k : string) : bool :=
  negb (bool_decide (k ∈ object_prototype_keys)).

(** A component class name that is no member of an entity either. *)
Definition ordinary_class (k : string) : bool :=
  ordinary_key k && negb (bool_decide (k ∈ entity_members)).

(** A property bag none of whose keys shadows a member of the instance. *)
Definition ordinary_bag (properties : Props) : bool :=
  forallb (λ k, ordinary_key k && negb (bool_decide (k ∈ component_members)))
          (keys properties).

(** A key made of digits only: [for ... in] visits the array indices among
    the keys of an object first, before the keys in insertion order. *)
Definition index_like (k : string) : bool :=
  negb (String.eqb k "")
  && forallb (λ c, Nat.leb 48 (nat_of_ascii c) && Nat.leb (nat_of_ascii c) 57)
             (list_ascii_of_string k).

(** A logic list whose key and whose names the tables do not inherit, and
    whose key keeps its place in the order of the query table. *)
Definition ordinary_logic (logic : list string) : bool :=
  ordinary_key (logic_key logic)
  && negb (index_like (logic_key logic))
  && forallb (λ tok, ordinary_key (token_name tok)) logic.

Definition ordinary_call (c : Call) : bool :=
  match c with
  | RegisterSystem s => ordinary_key s
  | RegisterComponent k => ordinary_class k
  | NewEntity id => ordinary_key id
  | AddComponent _ k properties => ordinary_class k && ordinary_bag properties
  | RemoveComponent _ k => ordinary_class k
  | CreateQuery logic | RunQuery logic => ordinary_logic logic
  end.

(** A script on which the model and the code agree. *)
Definition ordinary (cs : list Call) : bool := forallb ordinary_call cs.

(** A world all of whose entity ids are ordinary keys, as the ids drawn by
    [crypto.randomUUID] are. *)
Definition ordinary_world (w : ECS.t) : bool :=
  forallb ordinary_key (keys (ECS.entities w)).


(** * Lemmas *)

(** ** The loops of [refresh] and [componentAddedToEntity] *)

Section loops.
Context (w : ECS.t).

Lemma filter_length_all {A} (P : A → Prop) `{∀ x, Decision (P x)} (l : list A) :
  length (filter P l) = length l ↔ Forall P l.
Proof.
  induction l as [|x l IH]; simpl.
  - split; [constructor | done].
  - rewrite filter_cons. destruct (decide (P x)) as [Hx|Hx]; simpl.
    + rewrite Forall_cons. split.
      * intros Hl. split; [done|]. apply IH. lia.
      * intros [_ Hl]. f_equal. by apply IH.
    + pose proof (length_filter P l). split; [lia|].
      intros Hl. by apply Forall_cons in Hl as [? _].
Qed.

Lemma count_present_resolved cs id k :
  Forall (resolves w) cs →
  count_present w cs id k
  = Normal (k + length (filter (λ c, present w id c = true) cs)).
Proof.
  intros Hcs. revert k. induction Hcs as [|c cs Hc _ IH]; intros k; cbn [count_present].
  - simpl. f_equal. lia.
  - destruct Hc as [cls Hcls].
    assert (present w id c = truthy (ComponentClass.entities cls !! id)) as Hp.
    { unfold present. by rewrite Hcls. }
    rewrite Hcls, IH, filter_cons, Hp.
    destruct (truthy (ComponentClass.entities cls !! id)) eqn:Ht.
    + rewrite decide_True by done. simpl. f_equal. lia.
    + rewrite decide_False by done. done.
Qed.

Lemma count_present_unresolved cs id k :
  ¬ Forall (resolves w) cs →
  count_present w cs id k
  = Throw (TypeError "Cannot read properties of undefined (reading 'entities')").
Proof.
  revert k. induction cs as [|c cs IH]; intros k Hcs; cbn [count_present].
  - destruct Hcs. constructor.
  - destruct (c ≫= (λ n, ECS.components w !! n)) as [cls|] eqn:Hc; [|done].
    apply IH. intros Hrest. apply Hcs. constructor; [by eexists | done].
Qed.

Lemma refresh_loop_resolved cs ids acc :
  Forall (resolves w) cs →
  ∃ m, refresh_loop w cs ids acc = (Normal tt, m) ∧
       ∀ id, m !! id =
             if decide (id ∈ ids ∧ Forall (λ c, present w id c = true) cs)
             then Some VTrue else acc !! id.
Proof.
  intros Hcs. revert acc. induction ids as [|i ids IH]; intros acc; cbn [refresh_loop].
  - exists acc. split; [done|]. intros id.
    case_decide as Hd; [|done]. destruct Hd as [Hin _]. by apply elem_of_nil in Hin.
  - rewrite count_present_resolved by done. cbn [Nat.add].
    destruct (IH (if Nat.eqb (length (filter (λ c, present w i c = true) cs)) (length cs)
                  then <[i:=VTrue]> acc else acc)) as (m & -> & Hm).
    exists m. split; [done|]. intros id. rewrite Hm. clear Hm IH.
    destruct (decide (id ∈ ids ∧ Forall (λ c, present w id c = true) cs))
      as [[Hin Hall]|Hno].
    + rewrite decide_True; [done|]. split; [by right | done].
    + destruct (decide (id ∈ i :: ids ∧ Forall (λ c, present w id c = true) cs))
        as [[Hin Hall]|Hno'].
      * apply elem_of_cons in Hin as [->|Hin]; [|by destruct Hno].
        pose proof (proj2 (filter_length_all _ _) Hall) as Hlen.
        apply Nat.eqb_eq in Hlen. rewrite Hlen. by rewrite lookup_insert_eq.
      * destruct (Nat.eqb _ _) eqn:Hlen; [|done].
        apply Nat.eqb_eq in Hlen. apply filter_length_all in Hlen.
        rewrite lookup_insert_ne; [done|]. intros ->. apply Hno'.
        split; [by left | done].
Qed.

Lemma refresh_loop_unresolved cs ids acc :
  ¬ Forall (resolves w) cs → ids ≠ [] →
  refresh_loop w cs ids acc
  = (Throw (TypeError "Cannot read properties of undefined (reading 'entities')"), acc).
Proof.
  intros Hcs Hids. destruct ids as [|i ids]; [done|]. simpl.
  by rewrite count_present_unresolved.
Qed.

Lemma elem_of_keys {V} (m : gmap string V) k : k ∈ keys m ↔ is_Some (m !! k).
Proof.
  unfold keys. rewrite list_elem_of_fmap. split.
  - intros ([k' v] & -> & Hin). apply elem_of_map_to_list in Hin. by eexists.
  - intros [v Hv]. exists (k, v). split; [done|]. by apply elem_of_map_to_list.
Qed.

Lemma NoDup_keys {V} (m : gmap string V) : NoDup (keys m).
Proof. apply NoDup_fst_map_to_list. Qed.

(** A rebuild with every reference live returns, and the cache it leaves
    is [rebuilt]. *)
Lemma refresh_resolved q :
  Forall (resolves w) (Query.components q) →
  refresh w q = (Normal tt, set_cache (rebuilt w (Query.components q)) q).
Proof.
  intros Hcs. unfold refresh.
  destruct (refresh_loop_resolved (Query.components q) (keys (ECS.entities w)) ∅ Hcs)
    as (m & -> & Hm).
  f_equal. f_equal. apply map_eq. intros id. rewrite Hm. unfold rebuilt.
  rewrite lookup_fmap, lookup_empty.
  destruct (decide _) as [[Hin Hall]|Hno].
  - apply elem_of_keys in Hin as [e He].
    erewrite map_lookup_filter_Some_2; [done|exact He|done].
  - destruct (filter _ _ !! id) as [e|] eqn:He; [|done].
    apply map_lookup_filter_Some in He as [He Hall]. destruct Hno.
    split; [|done]. apply elem_of_keys. by eexists.
Qed.

(** A rebuild that meets an undefined reference throws on the first
    entity, with the cache already cleared. *)
Lemma refresh_unresolved q :
  ¬ Forall (resolves w) (Query.components q) → ECS.entities w ≠ ∅ →
  refresh w q
  = (Throw (TypeError "Cannot read properties of undefined (reading 'entities')"),
     set_cache ∅ q).
Proof.
  intros Hcs Hne. unfold refresh. rewrite refresh_loop_unresolved; [done|done|].
  unfold keys. intros Hnil. apply fmap_nil_inv in Hnil.
  by apply map_to_list_empty_iff in Hnil.
Qed.

Lemma refresh_no_entities q :
  ECS.entities w = ∅ → refresh w q = (Normal tt, set_cache ∅ q).
Proof.
  intros He. unfold refresh, keys. rewrite He, map_to_list_empty. done.
Qed.
End loops.

Section incremental.

Lemma foldl_count {A} (f : A → bool) (l : list A) (k : nat) :
  foldl (λ count x, if f x then S count else count) k l
  = k + length (filter (λ x, f x = true) l).
Proof.
  revert k. induction l as [|x l IH]; intros k; cbn [foldl]; [simpl; lia|].
  rewrite IH, filter_cons. destruct (f x).
  - rewrite decide_True by done. simpl. lia.
  - rewrite decide_False by done. done.
Qed.

(** Counting the keys that occur in a duplicate-free name list reaches
    the length of the list exactly when every name is a key. *)
Lemma count_included (names ks : list string) :
  NoDup names → NoDup ks →
  length (filter (λ p, includes names p = true) ks) = length names
  ↔ Forall (λ n, n ∈ ks) names.
Proof.
  intros Hnames Hks.
  set (hit := filter (λ p, includes names p = true) ks).
  assert (NoDup hit) as Hhit by by apply NoDup_filter.
  assert (hit ⊆+ names) as Hsub.
  { apply NoDup_submseteq; [done|]. intros x Hx.
    apply list_elem_of_filter in Hx as [Hx _].
    unfold includes in Hx. by apply bool_decide_eq_true in Hx. }
  split.
  - intros Hlen. apply Forall_forall. intros n Hn.
    assert (hit ≡ₚ names) as Hperm.
    { apply submseteq_length_Permutation; [done|lia]. }
    rewrite <- Hperm in Hn. by apply list_elem_of_filter in Hn as [_ Hn].
  - intros Hall. apply Nat.le_antisymm; [by apply submseteq_length|].
    apply submseteq_length, NoDup_submseteq; [done|]. intros n Hn.
    apply list_elem_of_filter. split.
    + unfold includes. by apply bool_decide_eq_true.
    + by eapply Forall_forall in Hall.
Qed.

(** The attach path on a query whose name list has no repetition and is
    as long as its reference list. *)
Lemma componentAddedToEntity_NoDup q e :
  length (Query.components q) = length (Query.component_names q) →
  NoDup (Query.component_names q) →
  componentAddedToEntity q e
  = if decide (holds_all (Query.component_names q) e)
    then set_cache (<[Entity.id e := VEntity (Entity.id e)]> (Query.entities q)) q
    else q.
Proof.
  intros Hlen Hnd. unfold componentAddedToEntity.
  rewrite foldl_count, Hlen. cbn [Nat.add].
  pose proof (count_included (Query.component_names q) (keys (Entity.components e))
                Hnd (NoDup_keys _)) as Hc.
  destruct (decide (holds_all (Query.component_names q) e)) as [Hall|Hno].
  - replace (Nat.eqb _ _) with true; [done|]. symmetry. apply Nat.eqb_eq, Hc.
    eapply Forall_impl; [exact Hall|]. intros n Hn. by apply elem_of_keys.
  - replace (Nat.eqb _ _) with false; [done|]. symmetry. apply Nat.eqb_neq.
    intros Heq. apply Hc in Heq. apply Hno.
    eapply Forall_impl; [exact Heq|]. intros n Hn. by apply elem_of_keys in Hn.
Qed.

Lemma componentAddedToEntity_meta q e :
  Query.components (componentAddedToEntity q e) = Query.components q
  ∧ Query.component_names (componentAddedToEntity q e) = Query.component_names q
  ∧ Query.logic (componentAddedToEntity q e) = Query.logic q.
Proof. unfold componentAddedToEntity. by destruct (Nat.eqb _ _). Qed.

(** Whatever the query, the attach path touches one key only, and what
    it writes there is the entity object. *)
Lemma componentAddedToEntity_cases q e :
  componentAddedToEntity q e = q
  ∨ componentAddedToEntity q e
    = set_cache (<[Entity.id e := VEntity (Entity.id e)]> (Query.entities q)) q.
Proof. unfold componentAddedToEntity. destruct (Nat.eqb _ _); auto. Qed.

Lemma compile_spec w logic cs ns :
  compile w logic cs ns
  = ((cs ++ (class_ref w ∘ token_name <$> logic))%list,
     (ns ++ (token_name <$> logic))%list).
Proof.
  revert cs ns. induction logic as [|tok logic IH]; intros cs ns; simpl.
  - by rewrite !app_nil_r.
  - rewrite IH. by rewrite <- !app_assoc.
Qed.

Lemma new_Query_spec w logic :
  new_Query w logic
  = refresh w (Query.mk (class_ref w ∘ token_name <$> logic)
                        (token_name <$> logic) logic ∅).
Proof. unfold new_Query. by rewrite compile_spec. Qed.

End incremental.

(** ** What each method returns *)

Ltac run_M :=
  unfold mbind, M_bind, mret, M_ret, get, modify, throw, console_error; cbn beta iota.

Lemma js_in_true {V} k (obj : gmap string V) : js_in k obj = true ↔ is_Some (obj !! k).
Proof. unfold js_in. apply bool_decide_eq_true. Qed.

Lemma js_in_false {V} k (obj : gmap string V) : js_in k obj = false ↔ obj !! k = None.
Proof.
  unfold js_in. rewrite bool_decide_eq_false. split.
  - intros Hn. by apply eq_None_not_Some.
  - intros Hn [v Hv]. congruence.
Qed.

Lemma registerSystem_fresh w s :
  ECS.systems w !! s = None →
  registerSystem s w
  = (Normal tt, emit (OnRegistration s) (set_systems <[s := System.mk s]> w)).
Proof.
  intros Hs. apply js_in_false in Hs. unfold registerSystem. run_M.
  cbn [System.class_name]. by rewrite Hs.
Qed.

Lemma registerSystem_again w s :
  is_Some (ECS.systems w !! s) →
  registerSystem s w
  = (Normal tt,
     emit (ConsoleError ("System " +:+ s +:+ " already registered with ECS")) w).
Proof.
  intros Hs. apply js_in_true in Hs. unfold registerSystem. run_M.
  cbn [System.class_name]. by rewrite Hs.
Qed.

Lemma registerComponent_fresh w k :
  ECS.components w !! k = None →
  registerComponent k w
  = (Normal tt, set_components <[k := ComponentClass.mk k ∅]> w).
Proof.
  intros Hk. apply js_in_false in Hk. unfold registerComponent. run_M. by rewrite Hk.
Qed.

Lemma registerComponent_again w k :
  is_Some (ECS.components w !! k) →
  registerComponent k w
  = (Normal tt,
     emit (ConsoleError ("Component " +:+ k +:+ " already registered with ECS")) w).
Proof.
  intros Hk. apply js_in_true in Hk. unfold registerComponent. run_M. by rewrite Hk.
Qed.

Lemma addComponent_unregistered w this self k props :
  ECS.entities w !! this = Some self →
  ECS.components w !! k = None →
  addComponent this k props w
  = (Throw (Error "Component [object Object] not registered with ECS"), w).
Proof.
  intros He Hk. apply js_in_false in Hk. unfold addComponent. run_M.
  by rewrite He, Hk.
Qed.

Lemma addComponent_registered w this self k props :
  ECS.entities w !! this = Some self →
  is_Some (ECS.components w !! k) →
  addComponent this k props w = (Normal tt, attached w this self k props).
Proof.
  intros He Hk. apply js_in_true in Hk. unfold addComponent. run_M.
  by rewrite He, Hk.
Qed.

Lemma addComponent_no_object w this k props :
  ECS.entities w !! this = None →
  addComponent this k props w = (Throw (NoSuchObject this), w).
Proof. intros He. unfold addComponent. run_M. by rewrite He. Qed.

Lemma removeComponent_not_held w this self k :
  ECS.entities w !! this = Some self →
  Entity.root self !! k = None →
  removeComponent this k w
  = (Throw (ReferenceError "component_name is not defined"), w).
Proof.
  intros He Hk. apply js_in_false in Hk. unfold removeComponent. run_M.
  by rewrite He, Hk.
Qed.

Lemma removeComponent_held w this self k :
  ECS.entities w !! this = Some self →
  is_Some (Entity.root self !! k) →
  is_Some (ECS.components w !! k) →
  ∃ c, removeComponent this k w
       = (c, set_queries
               (λ _, (refresh_queries_using (detached w this self k) k (ECS.queries w)).2)
               (detached w this self k))
       ∧ (c = Normal tt ↔
          (refresh_queries_using (detached w this self k) k (ECS.queries w)).1 = Normal tt).
Proof.
  intros He Hr Hk. apply js_in_true in Hr. apply js_in_true in Hk.
  unfold removeComponent. run_M. rewrite He, Hr. cbn [ECS.components set_entities].
  rewrite Hk. cbn [ECS.queries set_components].
  fold (detach_from self k). fold (detached w this self k).
  change (ECS.queries (set_entities <[this:=detach_from self k]> w)) with (ECS.queries w).
  destruct (refresh_queries_using (detached w this self k) k (ECS.queries w))
    as [[[]|e] qs]; eexists; (split; [reflexivity|]); cbn [fst]; split; congruence.
Qed.

Lemma removeComponent_held_unregistered w this self k :
  ECS.entities w !! this = Some self →
  is_Some (Entity.root self !! k) →
  ECS.components w !! k = None →
  removeComponent this k w
  = (Throw (TypeError "Cannot read properties of undefined (reading 'entities')"),
     set_entities <[this := detach_from self k]> w).
Proof.
  intros He Hr Hk. apply js_in_true in Hr. apply js_in_false in Hk.
  unfold removeComponent. run_M. rewrite He, Hr. cbn [ECS.components set_entities].
  by rewrite Hk.
Qed.

Lemma removeComponent_no_object w this k :
  ECS.entities w !! this = None →
  removeComponent this k w = (Throw (NoSuchObject this), w).
Proof. intros He. unfold removeComponent. run_M. by rewrite He. Qed.

(** ** The query table *)

Lemma assoc_set_lookup k q qs : assoc k (assoc_set k q qs) = Some q.
Proof.
  induction qs as [|[k' q'] qs IH]; simpl.
  - by rewrite String.eqb_refl.
  - destruct (String.eqb k k') eqn:Hk; simpl; rewrite ?String.eqb_refl, ?Hk; done.
Qed.

Lemma assoc_set_again k q q' qs :
  assoc_set k q' (assoc_set k q qs) = assoc_set k q' qs.
Proof.
  induction qs as [|[k1 q1] qs IH]; simpl.
  - by rewrite String.eqb_refl.
  - destruct (String.eqb k k1) eqn:Hk; simpl; rewrite ?String.eqb_refl, ?Hk; [done|].
    by rewrite IH.
Qed.

Lemma assoc_elem_of k q qs : assoc k qs = Some q → (k, q) ∈ qs.
Proof.
  induction qs as [|[k1 q1] qs IH]; simpl; [done|].
  destruct (String.eqb k k1) eqn:Hk.
  - apply String.eqb_eq in Hk as ->. intros [= ->]. by left.
  - intros Hq. right. by apply IH.
Qed.

Lemma in_queries_true k qs : in_queries k qs = true ↔ is_Some (assoc k qs).
Proof. unfold in_queries. apply bool_decide_eq_true. Qed.

Lemma in_queries_false k qs : in_queries k qs = false ↔ assoc k qs = None.
Proof.
  unfold in_queries. rewrite bool_decide_eq_false. split.
  - intros Hn. by apply eq_None_not_Some.
  - intros Hn [v Hv]. congruence.
Qed.

Lemma resolves_class_ref w n : resolves w (class_ref w n) ↔ is_Some (ECS.components w !! n).
Proof.
  unfold resolves, class_ref. destruct (js_in n (ECS.components w)) eqn:Hn; simpl.
  - apply js_in_true in Hn. done.
  - apply js_in_false in Hn. rewrite Hn. split; by intros [? ?].
Qed.

Lemma all_registered_resolves w logic :
  all_registered w logic ↔ Forall (resolves w) (class_ref w ∘ token_name <$> logic).
Proof.
  unfold all_registered. rewrite Forall_fmap. apply Forall_proper; [|done].
  intros tok. simpl. by rewrite resolves_class_ref.
Qed.

Lemma rebuilt_no_entities w cs : ECS.entities w = ∅ → rebuilt w cs = ∅.
Proof. intros He. unfold rebuilt. by rewrite He, map_filter_empty, fmap_empty. Qed.

Lemma new_Query_returns w logic :
  all_registered w logic ∨ ECS.entities w = ∅ →
  new_Query w logic = (Normal tt, compiled w logic).
Proof.
  rewrite new_Query_spec. intros [Hreg|He].
  - apply all_registered_resolves in Hreg. by rewrite refresh_resolved.
  - rewrite refresh_no_entities by done. unfold compiled.
    by rewrite rebuilt_no_entities.
Qed.

Lemma new_Query_throws w logic :
  ¬ all_registered w logic → ECS.entities w ≠ ∅ →
  (new_Query w logic).1
  = Throw (TypeError "Cannot read properties of undefined (reading 'entities')").
Proof.
  rewrite new_Query_spec. intros Hreg He.
  rewrite refresh_unresolved; [done| |done].
  cbn [Query.components]. by rewrite <- all_registered_resolves.
Qed.

Lemma createQuery_exists w logic :
  is_Some (assoc (logic_key logic) (ECS.queries w)) →
  createQuery logic w
  = (Normal false,
     emit (ConsoleError ("Query " +:+ logic_key logic +:+ " already exists in ECS")) w).
Proof.
  intros Hk. apply in_queries_true in Hk. unfold createQuery. run_M. by rewrite Hk.
Qed.

Lemma createQuery_creates w logic :
  assoc (logic_key logic) (ECS.queries w) = None →
  all_registered w logic ∨ ECS.entities w = ∅ →
  createQuery logic w
  = (Normal true, set_queries (assoc_set (logic_key logic) (compiled w logic)) w).
Proof.
  intros Hk Hok. apply in_queries_false in Hk. unfold createQuery. run_M.
  rewrite Hk, new_Query_returns by done.
  assert (refresh (set_queries (assoc_set (logic_key logic) (compiled w logic)) w)
                  (compiled w logic) = (Normal tt, compiled w logic)) as ->.
  { destruct Hok as [Hreg|He].
    - apply all_registered_resolves in Hreg. by rewrite refresh_resolved.
    - rewrite refresh_no_entities by done. unfold compiled, set_cache. cbn.
      by rewrite rebuilt_no_entities. }
  unfold set_queries at 1. cbn. unfold set_queries. by rewrite assoc_set_again.
Qed.

Lemma createQuery_throws w logic :
  assoc (logic_key logic) (ECS.queries w) = None →
  ¬ all_registered w logic → ECS.entities w ≠ ∅ →
  createQuery logic w
  = (Throw (TypeError "Cannot read properties of undefined (reading 'entities')"), w).
Proof.
  intros Hk Hreg He. apply in_queries_false in Hk. unfold createQuery. run_M.
  rewrite Hk. pose proof (new_Query_throws w logic Hreg He) as Ht.
  destruct (new_Query w logic) as [c q]. simpl in Ht. by subst c.
Qed.

Lemma query_cached w logic :
  is_Some (assoc (logic_key logic) (ECS.queries w)) →
  query logic w = (Normal (cached (logic_key logic) w), w).
Proof.
  intros Hk. apply in_queries_true in Hk. unfold query. run_M. by rewrite Hk.
Qed.

Lemma query_creates w logic :
  assoc (logic_key logic) (ECS.queries w) = None →
  all_registered w logic ∨ ECS.entities w = ∅ →
  query logic w
  = (Normal (Query.entities (compiled w logic)),
     set_queries (assoc_set (logic_key logic) (compiled w logic)) w).
Proof.
  intros Hk Hok. unfold query.
  unfold mbind at 1, M_bind at 1, get at 1. cbn beta iota.
  rewrite (proj2 (in_queries_false _ _) Hk).
  unfold mbind at 1, M_bind at 1. rewrite createQuery_creates by done.
  run_M. unfold cached. cbn. by rewrite assoc_set_lookup.
Qed.

Lemma query_throws w logic :
  assoc (logic_key logic) (ECS.queries w) = None →
  ¬ all_registered w logic → ECS.entities w ≠ ∅ →
  query logic w
  = (Throw (TypeError "Cannot read properties of undefined (reading 'entities')"), w).
Proof.
  intros Hk Hreg He. unfold query.
  unfold mbind at 1, M_bind at 1, get at 1. cbn beta iota.
  rewrite (proj2 (in_queries_false _ _) Hk).
  unfold mbind at 1, M_bind at 1. by rewrite createQuery_throws.
Qed.

(** ** Legal scripts *)

Lemma run_cons c cs w : run (c :: cs) w = run cs (exec c w).
Proof. done. Qed.

(** ** Well-formed worlds *)

Lemma elem_of_matching w names id :
  id ∈ matching w names
  ↔ ∃ e, ECS.entities w !! id = Some e ∧ holds_all names e.
Proof.
  unfold matching. rewrite elem_of_dom. split.
  - intros [e He]. apply map_lookup_filter_Some in He as [He Hall]. eauto.
  - intros (e & He & Hall). exists e. by apply map_lookup_filter_Some.
Qed.

Lemma holds_all_singleton n e : holds_all [n] e ↔ is_Some (Entity.components e !! n).
Proof.
  unfold holds_all. rewrite Forall_cons. split; [by intros [? _]|].
  intros ?. split; [done|constructor].
Qed.

Lemma elem_of_holders w T id :
  id ∈ holders w T
  ↔ ∃ e, ECS.entities w !! id = Some e ∧ is_Some (Entity.components e !! T).
Proof.
  unfold holders. rewrite elem_of_matching.
  split; intros (e & He & Hh); exists e; (split; [done|]); by apply holds_all_singleton.
Qed.

Lemma wf_world_ext w w' :
  ECS.entities w' = ECS.entities w → ECS.components w' = ECS.components w →
  wf_world w → wf_world w'.
Proof.
  intros He Hc [H1 H2 H3 H4 H5]. split; rewrite ?He, ?Hc; done.
Qed.

Lemma wf_world_new : wf_world new_ECS.
Proof. split; simpl; intros *; by rewrite lookup_empty. Qed.

Lemma wf_world_registerComponent w k : wf_world w → wf_world (registerComponent k w).2.
Proof.
  intros Hw. destruct (ECS.components w !! k) as [cls|] eqn:Hk.
  - rewrite registerComponent_again by done. by apply (wf_world_ext w).
  - rewrite registerComponent_fresh by done. destruct Hw as [H1 H2 H3 H4 H5].
    split; simpl; [done|done|..].
    + intros i e n He Hn. rewrite lookup_insert. case_decide; [done|]. eauto.
    + intros n cls id v. rewrite lookup_insert. case_decide.
      * intros [= <-]. simpl. by rewrite lookup_empty.
      * eauto.
    + intros n cls id. rewrite lookup_insert. case_decide as Hkn.
      * intros [= <-]. simpl. rewrite lookup_empty. subst n. split.
        -- by intros [? ?].
        -- intros (e & He & Hn). apply (H3 _ _ _ He) in Hn.
           rewrite Hk in Hn. by destruct Hn.
      * eauto.
Qed.

Lemma wf_world_new_Entity w id :
  ECS.entities w !! id = None → wf_world w → wf_world (new_Entity id w).2.
Proof.
  intros Hid [H1 H2 H3 H4 H5]. unfold new_Entity, addEntity, modify. simpl.
  split; simpl.
  - intros k e. rewrite lookup_insert. case_decide; [by intros [= <-]|eauto].
  - intros k e. rewrite lookup_insert. case_decide; [by intros [= <-]|eauto].
  - intros k e n. rewrite lookup_insert. case_decide; [|eauto].
    intros [= <-]. simpl. rewrite lookup_empty. by intros [? ?].
  - done.
  - intros n cls i Hn. rewrite (H5 _ _ i Hn). split.
    + intros (e & He & Hh). exists e. split; [|done].
      rewrite lookup_insert_ne; [done|]. intros ->. congruence.
    + intros (e & He & Hh). rewrite lookup_insert in He. case_decide.
      * injection He as <-. simpl in Hh. rewrite lookup_empty in Hh. by destruct Hh.
      * eauto.
Qed.

Lemma wf_world_attached w this self k props :
  ECS.entities w !! this = Some self →
  is_Some (ECS.components w !! k) →
  wf_world w → wf_world (attached w this self k props).
Proof.
  intros Hself [cls0 Hk] [H1 H2 H3 H4 H5].
  pose proof (H1 _ _ Hself) as Hid.
  split; cbn [attached set_queries emit set_components set_entities
              ECS.entities ECS.components].
  - intros i e. rewrite lookup_insert. case_decide; [|eauto].
    intros [= <-]. simpl. congruence.
  - intros i e. rewrite lookup_insert. case_decide; [|eauto].
    intros [= <-]. simpl. by rewrite (H2 _ _ Hself).
  - intros i e n He Hn. unfold mark_present. rewrite lookup_alter.
    assert (is_Some (ECS.components w !! n)) as [cls Hcls].
    { rewrite lookup_insert in He. case_decide; [|eauto].
      injection He as <-. simpl in Hn. rewrite lookup_insert in Hn.
      case_decide; [subst; eauto | eauto]. }
    case_decide; [subst n|]; rewrite Hcls; simpl; by eexists.
  - intros n cls i v. unfold mark_present. rewrite lookup_alter. case_decide.
    + subst n. rewrite Hk. intros [= <-]. simpl. rewrite lookup_insert.
      case_decide; [by intros [= <-]|eauto].
    + eauto.
  - intros n cls i. unfold mark_present. rewrite lookup_alter.
    destruct (decide (k = n)) as [<-|Hkn].
    + rewrite Hk. intros [= <-]. simpl. rewrite Hid.
      destruct (decide (this = i)) as [<-|Hi].
      * rewrite !lookup_insert_eq. split; [|by eexists].
        intros _. eexists. split; [done|]. simpl. rewrite lookup_insert_eq. by eexists.
      * rewrite !lookup_insert_ne by done. by apply H5.
    + intros Hn. rewrite (H5 _ _ i Hn).
      destruct (decide (this = i)) as [<-|Hi].
      * rewrite lookup_insert_eq. split.
        -- intros (e & He & Hh). assert (e = self) as -> by congruence.
           eexists. split; [done|]. simpl. by rewrite lookup_insert_ne.
        -- intros (e & [= <-] & Hh). simpl in Hh. rewrite lookup_insert_ne in Hh by done.
           eauto.
      * by rewrite lookup_insert_ne.
Qed.

Lemma wf_world_detached w this self k :
  ECS.entities w !! this = Some self →
  wf_world w → wf_world (detached w this self k).
Proof.
  intros Hself [H1 H2 H3 H4 H5].
  pose proof (H1 _ _ Hself) as Hid.
  split; cbn [detached set_components set_entities ECS.entities ECS.components].
  - intros i e. rewrite lookup_insert. case_decide; [|eauto].
    intros [= <-]. simpl. congruence.
  - intros i e. rewrite lookup_insert. case_decide; [|eauto].
    intros [= <-]. simpl. by rewrite (H2 _ _ Hself).
  - intros i e n He Hn. unfold mark_absent. rewrite lookup_alter.
    assert (is_Some (ECS.components w !! n)) as [cls Hcls].
    { rewrite lookup_insert in He. case_decide; [|eauto].
      injection He as <-. simpl in Hn. rewrite lookup_delete in Hn.
      case_decide; [by destruct Hn | eauto]. }
    case_decide; [subst n|]; rewrite Hcls; simpl; by eexists.
  - intros n cls i v. unfold mark_absent. rewrite lookup_alter. case_decide.
    + subst n. destruct (ECS.components w !! k) as [cls0|] eqn:Hk; [|done].
      intros [= <-]. simpl. rewrite lookup_delete.
      case_decide; [done|eauto].
    + eauto.
  - intros n cls i. unfold mark_absent. rewrite lookup_alter.
    destruct (decide (k = n)) as [<-|Hkn].
    + destruct (ECS.components w !! k) as [cls0|] eqn:Hk; [|done].
      intros [= <-]. simpl. rewrite Hid.
      destruct (decide (this = i)) as [<-|Hi].
      * rewrite lookup_delete_eq, lookup_insert_eq. split; [by intros [? ?]|].
        intros (e & [= <-] & Hh). simpl in Hh. by rewrite lookup_delete_eq in Hh.
      * rewrite lookup_delete_ne, lookup_insert_ne by done. by apply H5.
    + intros Hn. rewrite (H5 _ _ i Hn).
      destruct (decide (this = i)) as [<-|Hi].
      * rewrite lookup_insert_eq. split.
        -- intros (e & He & Hh). assert (e = self) as -> by congruence.
           eexists. split; [done|]. simpl. by rewrite lookup_delete_ne.
        -- intros (e & [= <-] & Hh). simpl in Hh. rewrite lookup_delete_ne in Hh by done.
           eauto.
      * by rewrite lookup_insert_ne.
Qed.

(** What a call does to the entity table and the component table does not
    depend on the queries. *)
Lemma createQuery_frame w logic :
  ECS.entities (createQuery logic w).2 = ECS.entities w
  ∧ ECS.components (createQuery logic w).2 = ECS.components w
  ∧ ECS.systems (createQuery logic w).2 = ECS.systems w.
Proof.
  destruct (assoc (logic_key logic) (ECS.queries w)) as [q|] eqn:Hk.
  - by rewrite createQuery_exists.
  - destruct (decide (all_registered w logic)) as [Hreg|Hreg].
    { rewrite createQuery_creates; auto. }
    destruct (decide (ECS.entities w = ∅)) as [He|He].
    { rewrite createQuery_creates; auto. }
    by rewrite createQuery_throws.
Qed.

Lemma query_frame w logic :
  ECS.entities (query logic w).2 = ECS.entities w
  ∧ ECS.components (query logic w).2 = ECS.components w
  ∧ ECS.systems (query logic w).2 = ECS.systems w.
Proof.
  destruct (assoc (logic_key logic) (ECS.queries w)) as [q|] eqn:Hk.
  - by rewrite query_cached.
  - destruct (decide (all_registered w logic)) as [Hreg|Hreg].
    { rewrite query_creates; auto. }
    destruct (decide (ECS.entities w = ∅)) as [He|He].
    { rewrite query_creates; auto. }
    by rewrite query_throws.
Qed.

Lemma registerSystem_frame w s :
  ECS.entities (registerSystem s w).2 = ECS.entities w
  ∧ ECS.components (registerSystem s w).2 = ECS.components w
  ∧ ECS.queries (registerSystem s w).2 = ECS.queries w.
Proof.
  destruct (ECS.systems w !! s) as [x|] eqn:Hs.
  - by rewrite registerSystem_again.
  - by rewrite registerSystem_fresh.
Qed.

Lemma wf_world_addComponent w this k props :
  wf_world w → wf_world (addComponent this k props w).2.
Proof.
  intros Hw. destruct (ECS.entities w !! this) as [self|] eqn:Hself.
  - destruct (ECS.components w !! k) as [cls|] eqn:Hk.
    + rewrite (addComponent_registered _ _ self) by done.
      by apply wf_world_attached.
    + by rewrite (addComponent_unregistered _ _ self).
  - by rewrite addComponent_no_object.
Qed.

Lemma wf_world_removeComponent w this k :
  wf_world w → wf_world (removeComponent this k w).2.
Proof.
  intros Hw. destruct (ECS.entities w !! this) as [self|] eqn:Hself.
  - destruct (Entity.root self !! k) as [c|] eqn:Hr.
    + assert (is_Some (ECS.components w !! k)) as Hk.
      { eapply (wf_held _ Hw); [exact Hself|].
        rewrite <- (wf_root _ Hw _ _ Hself). by eexists. }
      destruct (removeComponent_held w this self k) as (c' & -> & _); [done..|].
      apply (wf_world_ext (detached w this self k)); [done..|].
      by apply wf_world_detached.
    + by rewrite (removeComponent_not_held _ _ self).
  - by rewrite removeComponent_no_object.
Qed.

Lemma wf_world_exec c w : call_ok c w = true → wf_world w → wf_world (exec c w).
Proof.
  intros Hok Hw. destruct c as [s|k|id|this k props|this k|logic|logic];
    cbn [exec].
  - destruct (registerSystem_frame w s) as (He & Hc & _).
    by apply (wf_world_ext w).
  - by apply wf_world_registerComponent.
  - apply wf_world_new_Entity; [|done]. simpl in Hok.
    apply negb_true_iff in Hok. by apply js_in_false in Hok.
  - by apply wf_world_addComponent.
  - by apply wf_world_removeComponent.
  - destruct (createQuery_frame w logic) as (He & Hc & _).
    by apply (wf_world_ext w).
  - destruct (query_frame w logic) as (He & Hc & _).
    by apply (wf_world_ext w).
Qed.

Lemma wf_world_run cs w : legal cs w = true → wf_world w → wf_world (run cs w).
Proof.
  revert w. induction cs as [|c cs IH]; intros w Hl Hw; [done|].
  cbn [legal] in Hl. apply andb_true_iff in Hl as [Hc Hl].
  rewrite run_cons. apply IH; [done|]. by apply wf_world_exec.
Qed.

Lemma presence_exact_wf w : wf_world w → presence_exact w.
Proof.
  intros Hw T cls HT. apply set_eq. intros id.
  rewrite elem_of_dom, elem_of_holders. by apply (wf_presence _ Hw).
Qed.

(** ** Well-formed query tables *)

Lemma matching_ext w w' names :
  ECS.entities w' = ECS.entities w → matching w' names = matching w names.
Proof. intros He. unfold matching. by rewrite He. Qed.

Lemma query_ok_mono w w' q :
  ECS.entities w' = ECS.entities w →
  (∀ n, is_Some (ECS.components w !! n) → is_Some (ECS.components w' !! n)) →
  query_ok w q → query_ok w' q.
Proof.
  intros He Hc [H1 H2 H3]. split; [done| |].
  - eapply Forall_impl; [exact H2|]. intros n. apply Hc.
  - intros Hnd Hne. unfold exact. rewrite (matching_ext w w') by done. by apply H3.
Qed.

Lemma ok_resolves w q : query_ok w q → Forall (resolves w) (Query.components q).
Proof.
  intros [H1 H2 _]. rewrite H1, Forall_fmap.
  eapply Forall_impl; [exact H2|]. intros n Hn. exact Hn.
Qed.

(** On a well-formed world the truthiness test of [refresh] reads whether
    the entity holds the type. *)
Lemma present_holds w id e n :
  wf_world w → ECS.entities w !! id = Some e →
  is_Some (ECS.components w !! n) →
  present w id (Some n) = true ↔ is_Some (Entity.components e !! n).
Proof.
  intros Hw He [cls Hcls]. unfold present. cbn [mbind option_bind]. rewrite Hcls.
  cbn [mbind option_bind].
  pose proof (wf_presence _ Hw _ _ id Hcls) as Hp.
  pose proof (wf_true _ Hw n cls id) as Ht.
  destruct (ComponentClass.entities cls !! id) as [v|] eqn:Hv; simpl.
  - rewrite (Ht v) by done. split; [|done]. intros _.
    destruct Hp as [Hp _]. destruct Hp as (e' & He' & Hh); [by eexists|].
    congruence.
  - split; [done|]. intros Hh. destruct Hp as [_ Hp].
    destruct Hp as [? ?]; [eauto|done].
Qed.

(** A full rebuild leaves exactly the matching ids, whatever the list. *)
Lemma rebuilt_exact w names :
  wf_world w →
  Forall (λ n, is_Some (ECS.components w !! n)) names →
  dom (rebuilt w (Some <$> names)) = matching w names.
Proof.
  intros Hw Hreg. apply set_eq. intros id. unfold rebuilt.
  rewrite dom_fmap_L, elem_of_dom, elem_of_matching. split.
  - intros [e He]. apply map_lookup_filter_Some in He as [He Hall].
    exists e. split; [done|]. cbn [fst] in Hall. rewrite Forall_fmap in Hall.
    unfold holds_all. rewrite Forall_forall in *. intros n Hn.
    eapply present_holds; eauto. by apply Hall.
  - intros (e & He & Hall). exists e. apply map_lookup_filter_Some.
    split; [done|]. cbn [fst]. rewrite Forall_fmap.
    unfold holds_all in Hall. rewrite Forall_forall in *. intros n Hn.
    simpl. eapply present_holds; eauto.
Qed.

Lemma compiled_ok w logic :
  wf_world w → all_registered w logic → query_ok w (compiled w logic).
Proof.
  intros Hw Hreg.
  assert (class_ref w ∘ token_name <$> logic = Some <$> (token_name <$> logic)) as Hrefs.
  { rewrite <- list_fmap_compose. apply Forall_fmap_ext.
    eapply Forall_impl; [exact Hreg|]. intros tok Htok. simpl.
    unfold class_ref. by rewrite (proj2 (js_in_true _ _) Htok). }
  assert (Forall (λ n, is_Some (ECS.components w !! n)) (token_name <$> logic)) as Hn.
  { by rewrite Forall_fmap. }
  split; cbn [compiled Query.components Query.component_names]; [done|done|].
  intros _ _. unfold exact. cbn [compiled Query.entities Query.component_names].
  rewrite Hrefs. by apply rebuilt_exact.
Qed.

Lemma elem_of_assoc_set x k q qs : x ∈ assoc_set k q qs → x = (k, q) ∨ x ∈ qs.
Proof.
  induction qs as [|[k1 q1] qs IH]; simpl.
  - intros Hx. apply list_elem_of_singleton in Hx. by left.
  - destruct (String.eqb k k1).
    + intros Hx. apply elem_of_cons in Hx as [->|Hx]; [by left|].
      right. by right.
    + intros Hx. apply elem_of_cons in Hx as [->|Hx]; [right; by left|].
      destruct (IH Hx) as [->|Hin]; [by left|right; by right].
Qed.

Lemma wf_queries_frame w w' :
  ECS.entities w' = ECS.entities w →
  (∀ n, is_Some (ECS.components w !! n) → is_Some (ECS.components w' !! n)) →
  ECS.queries w' = ECS.queries w →
  wf_queries w → wf_queries w'.
Proof.
  intros He Hc Hq Hw. unfold wf_queries. rewrite Hq.
  eapply Forall_impl; [exact Hw|]. intros [k q]. by apply query_ok_mono.
Qed.

Lemma wf_queries_insert w k q :
  wf_queries w → query_ok w q →
  wf_queries (set_queries (assoc_set k q) w).
Proof.
  intros Hw Hq. unfold wf_queries. cbn [set_queries ECS.queries].
  apply Forall_forall. intros x Hx. apply elem_of_assoc_set in Hx as [->|Hx].
  - by apply (query_ok_mono w).
  - unfold wf_queries in Hw. rewrite Forall_forall in Hw.
    apply (query_ok_mono w); [done|done|]. by apply Hw.
Qed.

Lemma call_resolving_query w logic :
  forallb (λ tok, js_in (token_name tok) (ECS.components w)) logic = true
  ↔ all_registered w logic.
Proof.
  unfold all_registered. rewrite forallb_forall, Forall_forall.
  split; intros H tok Htok.
  - apply js_in_true, H. by apply list_elem_of_In.
  - apply js_in_true, H. by apply list_elem_of_In.
Qed.

Lemma wf_queries_createQuery w logic :
  wf_world w → all_registered w logic →
  wf_queries w → wf_queries (createQuery logic w).2.
Proof.
  intros Hw Hreg Hq.
  destruct (assoc (logic_key logic) (ECS.queries w)) as [q|] eqn:Hk.
  - rewrite createQuery_exists by done. by apply (wf_queries_frame w).
  - rewrite createQuery_creates by auto. cbn [snd].
    apply wf_queries_insert; [done|]. by apply compiled_ok.
Qed.

Lemma wf_queries_query w logic :
  wf_world w → all_registered w logic →
  wf_queries w → wf_queries (query logic w).2.
Proof.
  intros Hw Hreg Hq.
  destruct (assoc (logic_key logic) (ECS.queries w)) as [q|] eqn:Hk.
  - by rewrite query_cached.
  - rewrite query_creates by auto. cbn [snd].
    apply wf_queries_insert; [done|]. by apply compiled_ok.
Qed.

Lemma wf_queries_registerComponent w k :
  wf_queries w → wf_queries (registerComponent k w).2.
Proof.
  intros Hq. destruct (ECS.components w !! k) as [cls|] eqn:Hk.
  - rewrite registerComponent_again by done. by apply (wf_queries_frame w).
  - rewrite registerComponent_fresh by done. apply (wf_queries_frame w); [done| |done|done].
    intros n Hn. cbn. rewrite lookup_insert. by case_decide.
Qed.

Lemma wf_queries_registerSystem w s :
  wf_queries w → wf_queries (registerSystem s w).2.
Proof.
  intros Hq. destruct (registerSystem_frame w s) as (He & Hc & Hqs).
  apply (wf_queries_frame w); [done| |done|done]. intros n. by rewrite Hc.
Qed.

Lemma holds_all_nil_components names id :
  names ≠ [] → ¬ holds_all names (Entity.mk id ∅ ∅).
Proof.
  intros Hne Hall. destruct names as [|n names]; [done|].
  apply Forall_cons in Hall as [[c Hc] _]. simpl in Hc. by rewrite lookup_empty in Hc.
Qed.

Lemma wf_queries_new_Entity w id :
  ECS.entities w !! id = None →
  wf_queries w → wf_queries (new_Entity id w).2.
Proof.
  intros Hid Hq. unfold new_Entity, addEntity, modify. cbn [snd].
  unfold wf_queries. cbn [set_entities ECS.queries].
  eapply Forall_impl; [exact Hq|]. intros [k q] [H1 H2 H3].
  split; [done|done|]. intros Hnd Hne. unfold exact. rewrite (H3 Hnd Hne).
  apply set_eq. intros i. rewrite !elem_of_matching. cbn [set_entities ECS.entities Entity.id].
  split.
  - intros (e & He & Hall). exists e. split; [|done].
    rewrite lookup_insert_ne; [done|]. intros ->. congruence.
  - intros (e & He & Hall). rewrite lookup_insert in He. case_decide.
    + injection He as <-. by apply holds_all_nil_components in Hall.
    + eauto.
Qed.

Lemma holds_all_attach_to names self k props :
  holds_all names self → holds_all names (attach_to self k props).
Proof.
  unfold holds_all. intros Hall. eapply Forall_impl; [exact Hall|].
  intros n Hn. simpl. rewrite lookup_insert. by case_decide.
Qed.

Lemma matching_attached w this self k props names :
  ECS.entities w !! this = Some self →
  matching (attached w this self k props) names
  = if decide (holds_all names (attach_to self k props))
    then {[this]} ∪ matching w names else matching w names.
Proof.
  intros Hself. apply set_eq. intros i.
  assert (i ∈ matching (attached w this self k props) names
          ↔ (i = this ∧ holds_all names (attach_to self k props))
            ∨ (i ≠ this ∧ i ∈ matching w names)) as ->.
  { rewrite !elem_of_matching.
    cbn [attached set_queries emit set_components set_entities ECS.entities].
    destruct (decide (i = this)) as [->|Hi].
    - rewrite lookup_insert_eq. split.
      + intros (e & [= <-] & Hall). by left.
      + intros [[_ Hall]|[Hne _]]; [eauto|done].
    - rewrite lookup_insert_ne by done. split; [by right|].
      intros [[Heq _]|[_ Hm]]; done. }
  case_decide as Hall.
  - rewrite elem_of_union, elem_of_singleton.
    destruct (decide (i = this)) as [->|Hi]; split.
    + by left.
    + intros _. by left.
    + intros [[Heq _]|[_ Hm]]; [done|by right].
    + intros [Heq|Hm]; [done|]. right. by split.
  - split; [by intros [[_ Hh]|[_ Hm]]|].
    intros Hm. right. split; [|done]. intros ->.
    apply elem_of_matching in Hm as (e & He & Hh).
    assert (e = self) as -> by congruence.
    by apply Hall, holds_all_attach_to.
Qed.

Lemma is_Some_mark_present k i cs n :
  is_Some (mark_present k i cs !! n) ↔ is_Some (cs !! n).
Proof.
  unfold mark_present. rewrite lookup_alter. case_decide; [subst|done].
  by rewrite fmap_is_Some.
Qed.

Lemma is_Some_mark_absent k i cs n :
  is_Some (mark_absent k i cs !! n) ↔ is_Some (cs !! n).
Proof.
  unfold mark_absent. rewrite lookup_alter. case_decide; [subst|done].
  by rewrite fmap_is_Some.
Qed.

Lemma query_ok_attached w this self k props q :
  wf_world w → ECS.entities w !! this = Some self →
  query_ok w q →
  query_ok (attached w this self k props)
           (componentAddedToEntity q (attach_to self k props)).
Proof.
  intros Hw Hself [H1 H2 H3].
  destruct (componentAddedToEntity_meta q (attach_to self k props)) as (Hc & Hn & _).
  split; rewrite ?Hc, ?Hn; [done| |].
  - eapply Forall_impl; [exact H2|]. intros n Hreg.
    cbn [attached set_queries emit set_components set_entities ECS.components].
    by apply is_Some_mark_present.
  - intros Hnd Hne. unfold exact. rewrite Hn.
    rewrite (matching_attached _ _ _ _ _ _ Hself).
    rewrite componentAddedToEntity_NoDup; [|by rewrite H1, length_fmap|done].
    case_decide.
    + cbn [set_cache Query.entities]. rewrite dom_insert_L.
      cbn [attach_to Entity.id]. rewrite (wf_id _ Hw _ _ Hself).
      by rewrite (H3 Hnd Hne).
    + by apply H3.
Qed.

Lemma wf_queries_attached w this self k props :
  wf_world w → ECS.entities w !! this = Some self →
  wf_queries w → wf_queries (attached w this self k props).
Proof.
  intros Hw Hself Hq. unfold wf_queries.
  cbn [attached set_queries ECS.queries emit set_components set_entities].
  apply Forall_fmap. eapply Forall_impl; [exact Hq|]. intros [key q] Hok.
  cbn [snd fst]. by apply query_ok_attached.
Qed.

Lemma resolves_mono w w' cs :
  (∀ n, is_Some (ECS.components w !! n) → is_Some (ECS.components w' !! n)) →
  Forall (resolves w) cs → Forall (resolves w') cs.
Proof.
  intros Hc Hcs. eapply Forall_impl; [exact Hcs|]. intros [n|]; unfold resolves; simpl.
  - apply Hc.
  - done.
Qed.

(** With every reference of every query live, the loop of
    [removeComponent] runs to its end. *)
Lemma refresh_queries_using_resolved w k qs :
  Forall (λ kq, Forall (resolves w) (Query.components kq.2)) qs →
  refresh_queries_using w k qs
  = (Normal tt,
     (λ kq, (kq.1, if includes (Query.component_names kq.2) k
                   then set_cache (rebuilt w (Query.components kq.2)) kq.2
                   else kq.2)) <$> qs).
Proof.
  induction 1 as [|[key q] qs Hq _ IH]; [done|].
  cbn [refresh_queries_using]. rewrite IH. cbn [snd fst] in *.
  rewrite refresh_resolved by done. rewrite fmap_cons. cbn [snd fst].
  by destruct (includes (Query.component_names q) k).
Qed.

Lemma holds_all_detach_from names self k :
  k ∉ names → holds_all names (detach_from self k) ↔ holds_all names self.
Proof.
  intros Hk. unfold holds_all. rewrite !Forall_forall.
  split; intros H n Hn; specialize (H n Hn); simpl in *;
    (rewrite lookup_delete_ne in *; [done|]); intros ->; done.
Qed.

Lemma matching_detached w this self k names :
  ECS.entities w !! this = Some self → k ∉ names →
  matching (detached w this self k) names = matching w names.
Proof.
  intros Hself Hk. apply set_eq. intros i. rewrite !elem_of_matching.
  cbn [detached set_components set_entities ECS.entities].
  destruct (decide (i = this)) as [->|Hi].
  - rewrite lookup_insert_eq. split.
    + intros (e & [= <-] & Hall). exists self. split; [done|].
      by apply (holds_all_detach_from names self k).
    + intros (e & He & Hall). assert (e = self) as -> by congruence.
      eexists. split; [done|]. by apply holds_all_detach_from.
  - by rewrite lookup_insert_ne.
Qed.

Lemma query_ok_detached w this self k q :
  wf_world w → ECS.entities w !! this = Some self →
  query_ok w q →
  query_ok (detached w this self k)
           (if includes (Query.component_names q) k
            then set_cache (rebuilt (detached w this self k) (Query.components q)) q
            else q).
Proof.
  intros Hw Hself [H1 H2 H3].
  assert (Forall (λ n, is_Some (ECS.components (detached w this self k) !! n))
                 (Query.component_names q)) as Hreg.
  { eapply Forall_impl; [exact H2|]. intros n Hn.
    cbn [detached set_components set_entities ECS.components].
    by apply is_Some_mark_absent. }
  destruct (includes (Query.component_names q) k) eqn:Hin.
  - split; cbn [set_cache Query.components Query.component_names]; [done|done|].
    intros _ _. unfold exact. cbn [set_cache Query.entities Query.component_names].
    rewrite H1. apply rebuilt_exact; [|done]. by apply wf_world_detached.
  - split; [done|done|]. intros Hnd Hne. unfold exact.
    rewrite matching_detached; [by apply H3|done|].
    unfold includes in Hin. by apply bool_decide_eq_false in Hin.
Qed.

Lemma wf_queries_removeComponent w this k :
  wf_world w → wf_queries w → wf_queries (removeComponent this k w).2.
Proof.
  intros Hw Hq. destruct (ECS.entities w !! this) as [self|] eqn:Hself.
  - destruct (Entity.root self !! k) as [c|] eqn:Hr.
    + assert (is_Some (ECS.components w !! k)) as Hk.
      { eapply (wf_held _ Hw); [exact Hself|].
        rewrite <- (wf_root _ Hw _ _ Hself). by eexists. }
      destruct (removeComponent_held w this self k) as (c' & -> & _); [done..|].
      cbn [snd]. unfold wf_queries. cbn [set_queries ECS.queries].
      rewrite refresh_queries_using_resolved.
      * cbn [snd]. apply Forall_fmap. eapply Forall_impl; [exact Hq|].
        intros [key q] Hok. cbn [snd fst].
        apply (query_ok_mono (detached w this self k)); [done|done|].
        by apply query_ok_detached.
      * eapply Forall_impl; [exact Hq|]. intros [key q] Hok. cbn [snd].
        eapply resolves_mono; [|by apply ok_resolves].
        intros n. apply is_Some_mark_absent.
    + by rewrite (removeComponent_not_held _ _ self).
  - by rewrite removeComponent_no_object.
Qed.

Lemma wf_queries_addComponent w this k props :
  wf_world w → wf_queries w → wf_queries (addComponent this k props w).2.
Proof.
  intros Hw Hq. destruct (ECS.entities w !! this) as [self|] eqn:Hself.
  - destruct (ECS.components w !! k) as [cls|] eqn:Hk.
    + rewrite (addComponent_registered _ _ self) by done.
      by apply wf_queries_attached.
    + by rewrite (addComponent_unregistered _ _ self).
  - by rewrite addComponent_no_object.
Qed.

Lemma wf_queries_exec c w :
  call_ok c w = true → call_resolving c w = true →
  wf_world w → wf_queries w → wf_queries (exec c w).
Proof.
  intros Hok Hres Hw Hq.
  destruct c as [s|k|id|this k props|this k|logic|logic]; cbn [exec].
  - by apply wf_queries_registerSystem.
  - by apply wf_queries_registerComponent.
  - apply wf_queries_new_Entity; [|done]. simpl in Hok.
    apply negb_true_iff in Hok. by apply js_in_false in Hok.
  - by apply wf_queries_addComponent.
  - by apply wf_queries_removeComponent.
  - apply wf_queries_createQuery; [done| |done]. by apply call_resolving_query.
  - apply wf_queries_query; [done| |done]. by apply call_resolving_query.
Qed.

Lemma wf_run cs w :
  legal cs w = true → resolving cs w = true →
  wf_world w → wf_queries w →
  wf_world (run cs w) ∧ wf_queries (run cs w).
Proof.
  revert w. induction cs as [|c cs IH]; intros w Hl Hr Hw Hq; [done|].
  cbn [legal resolving] in Hl, Hr.
  apply andb_true_iff in Hl as [Hc Hl]. apply andb_true_iff in Hr as [Hc' Hr].
  rewrite run_cons. apply IH; [done|done| |].
  - by apply wf_world_exec.
  - by apply wf_queries_exec.
Qed.

Lemma wf_queries_new : wf_queries new_ECS.
Proof. constructor. Qed.

(** * Properties *)

(** ** I1: presence tables *)

(** X15 (I1 on ordinary scripts).  In every world reached from [new ECS()]
    by ordinary calls that draw unique entity ids, whatever attach and
    detach calls were made and whether they returned or threw, the
    [entities] table of each registered component class has as keys
    exactly the ids of the entities that hold a component of that class.
    The code does not keep this for every class name: attaching a class
    named [id] overwrites the id of the entity before the presence table
    is keyed with it. *)
Theorem presence_tables_exact (cs : list Call) :
  legal cs new_ECS = true → ordinary cs = true →
  ∀ T cls, ECS.components (run cs new_ECS) !! T = Some cls →
    dom (ComponentClass.entities cls) = holders (run cs new_ECS) T.
Proof.
  intros Hl _. apply presence_exact_wf, wf_world_run; [done|]. apply wf_world_new.
Qed.

Lemma presence_tables_exact_witness :
  ∃ cls, ECS.components (run attach_detach_script new_ECS) !! "Position" = Some cls
         ∧ dom (ComponentClass.entities cls)
           = holders (run attach_detach_script new_ECS) "Position".
Proof.
  eexists. split.
  - vm_compute. reflexivity.
  - refine (presence_tables_exact attach_detach_script _ _ "Position" _ _).
    + vm_compute. reflexivity.
    + vm_compute. reflexivity.
    + vm_compute. reflexivity.
Defined.

(** ** I2: query caches *)

Lemma holds_at w id e names :
  ECS.entities w !! id = Some e → holds_all names e → id ∈ matching w names.
Proof. intros He Hall. apply elem_of_matching. eauto. Qed.

(** C1, as stated, fails: after an attach handled by the incremental path,
    the cache of a query on a repeated name misses an entity that holds the
    type; the cache of a query compiled before its type was registered is
    left empty by a detach while an entity still holds the type; the
    exception of that rebuild ends the loop of the detach, so that a sound
    query behind it keeps an entity that no longer holds the type; and the
    cache of a query on the empty list misses an entity created later. *)
Lemma cache_not_always_exact :
  (let w := run repeated_name_script new_ECS in
   legal repeated_name_script new_ECS = true
   ∧ ∃ q, assoc "A,A" (ECS.queries w) = Some q
          ∧ "e1" ∈ matching w (Query.component_names q)
          ∧ Query.entities q !! "e1" = None)
  ∧ (let w := run early_query_script new_ECS in
     legal early_query_script new_ECS = true
     ∧ ∃ q, assoc "A" (ECS.queries w) = Some q
            ∧ "e1" ∈ matching w (Query.component_names q)
            ∧ Query.entities q !! "e1" = None)
  ∧ (let w := run aborted_loop_script new_ECS in
     legal aborted_loop_script new_ECS = true
     ∧ ∃ q, assoc "A" (ECS.queries w) = Some q
            ∧ Query.component_names q = ["A"]
            ∧ Query.entities q !! "e1" = Some (VEntity "e1")
            ∧ "e1" ∉ matching w ["A"])
  ∧ (let w := run empty_logic_script new_ECS in
     legal empty_logic_script new_ECS = true
     ∧ ∃ q, assoc "" (ECS.queries w) = Some q
            ∧ "e1" ∈ matching w (Query.component_names q)
            ∧ Query.entities q !! "e1" = None).
Proof.
  split; [|split; [|split]]; cbn zeta; (split; [vm_compute; reflexivity|]).
  - eexists. split; [vm_compute; reflexivity|]. split; [|vm_compute; reflexivity].
    eapply holds_at; [vm_compute; reflexivity|].
    repeat constructor; vm_compute; by eexists.
  - eexists. split; [vm_compute; reflexivity|]. split; [|vm_compute; reflexivity].
    eapply holds_at; [vm_compute; reflexivity|].
    repeat constructor; vm_compute; by eexists.
  - eexists. split; [vm_compute; reflexivity|].
    split; [vm_compute; reflexivity|]. split; [vm_compute; reflexivity|].
    rewrite elem_of_matching. intros (e & He & Hall).
    vm_compute in He. injection He as <-.
    apply holds_all_singleton in Hall as [c Hc]. vm_compute in Hc. discriminate.
  - eexists. split; [vm_compute; reflexivity|]. split; [|vm_compute; reflexivity].
    eapply holds_at; [vm_compute; reflexivity|].
    repeat constructor; vm_compute; by eexists.
Qed.

(** C1, amended (I2).  In every world reached from [new ECS()] by ordinary
    calls that draw unique entity ids and hand [query] and [createQuery]
    only logic lists whose names are registered at that moment, every
    query whose compiled names are pairwise distinct, and at least one,
    has as the keys of its cache exactly the ids of the entities that hold
    a component of every one of those names. *)
Theorem cache_exact (cs : list Call) :
  legal cs new_ECS = true → ordinary cs = true → resolving cs new_ECS = true →
  ∀ k q, (k, q) ∈ ECS.queries (run cs new_ECS) →
    NoDup (Query.component_names q) → Query.component_names q ≠ [] →
    dom (Query.entities q) = matching (run cs new_ECS) (Query.component_names q).
Proof.
  intros Hl _ Hr k q Hin Hnd Hne.
  destruct (wf_run cs new_ECS Hl Hr wf_world_new wf_queries_new) as [_ Hq].
  unfold wf_queries in Hq. rewrite Forall_forall in Hq.
  by apply (ok_exact _ _ (Hq (k, q) Hin)).
Qed.

Lemma cache_exact_witness :
  ∃ q, ("Position,Velocity", q) ∈ ECS.queries (run attach_detach_script new_ECS)
       ∧ dom (Query.entities q) = matching (run attach_detach_script new_ECS)
                                   ["Position"; "Velocity"].
Proof.
  eexists. split.
  - apply assoc_elem_of. vm_compute. reflexivity.
  - refine (cache_exact attach_detach_script _ _ _ "Position,Velocity" _ _ _ _).
    + vm_compute. reflexivity.
    + vm_compute. reflexivity.
    + vm_compute. reflexivity.
    + apply assoc_elem_of. vm_compute. reflexivity.
    + apply NoDup_cons. split; [|apply NoDup_singleton].
      intros Hin. apply list_elem_of_singleton in Hin. done.
    + done.
Defined.

(** ** Detach of a type the entity does not hold *)

(** C3.  [removeComponent] of an ordinary class on an entity that does not
    hold it leaves the world as it was, but it does not return: evaluating
    the argument of [console.error] throws a ReferenceError, and nothing
    is logged. *)
Theorem removeComponent_absent_throws (w : ECS.t) (this : EntityId)
    (self : Entity.t) (component_class : string) :
  ordinary_class component_class = true →
  ECS.entities w !! this = Some self →
  Entity.root self !! component_class = None →
  removeComponent this component_class w
  = (Throw (ReferenceError "component_name is not defined"), w).
Proof.
  intros _ Hself Hroot. unfold removeComponent. run_M. rewrite Hself.
  assert (js_in component_class (Entity.root self) = false) as ->
    by by apply js_in_false.
  reflexivity.
Qed.

Lemma removeComponent_absent_throws_witness :
  removeComponent "e1" "Position" (run one_entity_script new_ECS)
  = (Throw (ReferenceError "component_name is not defined"),
     run one_entity_script new_ECS).
Proof.
  apply (removeComponent_absent_throws _ "e1" (Entity.mk "e1" ∅ ∅) "Position").
  - vm_compute. reflexivity.
  - vm_compute. reflexivity.
  - vm_compute. reflexivity.
Defined.

(** ** Attach of an unregistered type *)



(** ** [query] *)

(** C5.  With one entity in the world and no class registered, creating
    the query for [["Position"]] fails, and [query] neither logs nor
    returns an empty set: the TypeError raised by the rebuild inside the
    constructor reaches the caller, past the [else] branch that was
    written to log and return [{}]. *)
Lemma query_creation_failure_throws :
  query ["Position"] (run creation_throws_script new_ECS)
  = (Throw (TypeError "Cannot read properties of undefined (reading 'entities')"),
     run creation_throws_script new_ECS).
Proof. vm_compute. reflexivity. Qed.

(** X17.  On an ordinary logic list, in a world with ordinary entity ids,
    [query] returns the cache stored under the key of the list when there
    is one, without touching the world.  Otherwise, when every name of the
    list is registered or the world has no entity, it compiles the query,
    stores it under the key, and returns the cache the full rebuild left.
    Otherwise the TypeError of the rebuild is thrown to the caller and the
    world is unchanged.  No case logs an error or returns a fresh empty
    set: [createQuery] reports failure, with its error line, only for a
    key that is already present, and [query] calls it only for a key that
    is not. *)
Theorem query_cases (w : ECS.t) (logic : list string) :
  ordinary_world w = true → ordinary_logic logic = true →
  query logic w
  = (if in_queries (logic_key logic) (ECS.queries w) then
       (Normal (cached (logic_key logic) w), w)
     else if decide (constructible w logic) then
       (Normal (Query.entities (compiled w logic)),
        set_queries (assoc_set (logic_key logic) (compiled w logic)) w)
     else
       (Throw (TypeError "Cannot read properties of undefined (reading 'entities')"), w))
  ∧ createQuery logic w
    = (if in_queries (logic_key logic) (ECS.queries w) then
         (Normal false,
          emit (ConsoleError ("Query " +:+ logic_key logic +:+ " already exists in ECS")) w)
       else if decide (constructible w logic) then
         (Normal true, set_queries (assoc_set (logic_key logic) (compiled w logic)) w)
       else
         (Throw (TypeError "Cannot read properties of undefined (reading 'entities')"), w)).
Proof.
  intros _ _.
  destruct (in_queries (logic_key logic) (ECS.queries w)) eqn:Hk.
  - apply in_queries_true in Hk. split; [by apply query_cached|].
    by apply createQuery_exists.
  - apply in_queries_false in Hk. case_decide as Hc.
    + split; [by apply query_creates | by apply createQuery_creates].
    + split; [apply query_throws | apply createQuery_throws]; try done;
        intros H; apply Hc; [by left|by right|by left|by right].
Qed.

Lemma query_cases_witness :
  query ["Position"] (run one_entity_script new_ECS)
  = (Normal (cached "Position" (run one_entity_script new_ECS)),
     run one_entity_script new_ECS)
  ∧ createQuery ["Position"] (run one_entity_script new_ECS)
    = (Normal false,
       emit (ConsoleError "Query Position already exists in ECS")
            (run one_entity_script new_ECS)).
Proof.
  assert (ordinary_world (run one_entity_script new_ECS) = true) as H1
    by (vm_compute; reflexivity).
  assert (ordinary_logic ["Position"] = true) as H2 by (vm_compute; reflexivity).
  exact (query_cases (run one_entity_script new_ECS) ["Position"] H1 H2).
Defined.

(** ** Registering twice *)

Lemma registered_stays c w :
  (∀ n, is_Some (ECS.components w !! n) → is_Some (ECS.components (exec c w) !! n))
  ∧ (∀ n, is_Some (ECS.systems w !! n) → is_Some (ECS.systems (exec c w) !! n)).
Proof.
  destruct c as [s|k|id|this k props|this k|logic|logic]; cbn [exec].
  - destruct (ECS.systems w !! s) as [x|] eqn:Hs.
    + by rewrite registerSystem_again.
    + rewrite registerSystem_fresh by done. split; [done|].
      intros n Hn. cbn. rewrite lookup_insert. by case_decide.
  - destruct (ECS.components w !! k) as [x|] eqn:Hk.
    + by rewrite registerComponent_again.
    + rewrite registerComponent_fresh by done. split; [|done].
      intros n Hn. cbn. rewrite lookup_insert. by case_decide.
  - done.
  - destruct (ECS.entities w !! this) as [self|] eqn:Hself.
    + destruct (ECS.components w !! k) as [cls|] eqn:Hk.
      * rewrite (addComponent_registered _ _ self) by done. split; [|done].
        intros n Hn. cbn. by apply is_Some_mark_present.
      * by rewrite (addComponent_unregistered _ _ self).
    + by rewrite addComponent_no_object.
  - destruct (ECS.entities w !! this) as [self|] eqn:Hself.
    + destruct (Entity.root self !! k) as [c|] eqn:Hr.
      * destruct (ECS.components w !! k) as [cls|] eqn:Hk.
        -- destruct (removeComponent_held w this self k) as (c' & -> & _); [done..|].
           split; [|done]. intros n Hn. cbn. by apply is_Some_mark_absent.
        -- by rewrite (removeComponent_held_unregistered _ _ self).
      * by rewrite (removeComponent_not_held _ _ self).
    + by rewrite removeComponent_no_object.
  - destruct (createQuery_frame w logic) as (_ & -> & ->). done.
  - destruct (query_frame w logic) as (_ & -> & ->). done.
Qed.

Lemma registered_stays_run cs w :
  (∀ n, is_Some (ECS.components w !! n) → is_Some (ECS.components (run cs w) !! n))
  ∧ (∀ n, is_Some (ECS.systems w !! n) → is_Some (ECS.systems (run cs w) !! n)).
Proof.
  revert w. induction cs as [|c cs IH]; intros w; [done|].
  rewrite run_cons. destruct (registered_stays c w) as [Hc Hs].
  destruct (IH (exec c w)) as [Hc' Hs']. split; eauto.
Qed.

(** C6.  Once a component class or a system has been registered, a second
    registration of the same name, at once or after any further calls,
    returns normally and changes nothing but the trace, to which it adds
    one [console.error] line: the tables, the presence table of the class
    and the stored system stay, and [onRegistration] is not run again. *)
Theorem register_twice (w : ECS.t) (name : string) (cs : list Call) :
  registerComponent name (run cs (registerComponent name w).2)
  = (Normal tt,
     emit (ConsoleError ("Component " +:+ name +:+ " already registered with ECS"))
          (run cs (registerComponent name w).2))
  ∧ registerSystem name (run cs (registerSystem name w).2)
    = (Normal tt,
       emit (ConsoleError ("System " +:+ name +:+ " already registered with ECS"))
            (run cs (registerSystem name w).2)).
Proof.
  split.
  - apply registerComponent_again. apply registered_stays_run.
    destruct (ECS.components w !! name) as [cls|] eqn:Hk.
    + rewrite registerComponent_again by done. simpl. by rewrite Hk.
    + rewrite registerComponent_fresh by done. simpl. by rewrite lookup_insert_eq.
  - apply registerSystem_again. apply registered_stays_run.
    destruct (ECS.systems w !! name) as [s|] eqn:Hs.
    + rewrite registerSystem_again by done. simpl. by rewrite Hs.
    + rewrite registerSystem_fresh by done. simpl. by rewrite lookup_insert_eq.
Qed.

(** ** The empty logic list *)

(** C8.  Compiling the empty list gives a query with no reference, and its
    full rebuild returns with [true] stored under the id of every entity of
    the world's entity table; so does a later rebuild of such a query. *)
Theorem empty_logic_matches_all (w : ECS.t) :
  new_Query w [] = (Normal tt, Query.mk [] [] [] ((λ _, VTrue) <$> ECS.entities w))
  ∧ (∀ names logic cache,
       refresh w (Query.mk [] names logic cache)
       = (Normal tt, Query.mk [] names logic ((λ _, VTrue) <$> ECS.entities w)))
  ∧ dom (Query.entities (new_Query w []).2) = dom (ECS.entities w).
Proof.
  assert (rebuilt w [] = (λ _, VTrue) <$> ECS.entities w) as Hall.
  { unfold rebuilt. f_equal. apply map_filter_id. intros i e _. constructor. }
  assert (∀ names logic cache,
       refresh w (Query.mk [] names logic cache)
       = (Normal tt, Query.mk [] names logic ((λ _, VTrue) <$> ECS.entities w))) as Hr.
  { intros names logic cache. rewrite refresh_resolved by constructor.
    cbn [Query.components]. by rewrite Hall. }
  split; [|split].
  - rewrite new_Query_spec. apply Hr.
  - exact Hr.
  - rewrite new_Query_spec. cbn [fmap list_fmap]. rewrite Hr. cbn [snd Query.entities].
    by rewrite dom_fmap_L.
Qed.

(** ** Attach, detach, attach *)

Lemma componentAddedToEntity_idem q e :
  componentAddedToEntity (componentAddedToEntity q e) e = componentAddedToEntity q e.
Proof.
  unfold componentAddedToEntity.
  destruct (Nat.eqb _ (length (Query.components q))) eqn:Hc; [|by rewrite Hc].
  cbn [set_cache Query.components Query.component_names Query.entities Query.logic].
  rewrite Hc. unfold set_cache. cbn. by rewrite insert_insert_eq.
Qed.

Lemma attach_detach_attach_entity self k props :
  attach_to (detach_from (attach_to self k props) k) k props = attach_to self k props.
Proof.
  unfold attach_to, detach_from. cbn.
  by rewrite !insert_delete_eq, !insert_insert_eq.
Qed.

Lemma mark_present_absent_present k i cs :
  mark_present k i (mark_absent k i (mark_present k i cs)) = mark_present k i cs.
Proof.
  apply map_eq. intros n. unfold mark_present, mark_absent.
  rewrite !lookup_alter. case_decide; [|done]. subst n.
  rewrite !decide_True by done.
  destruct (cs !! k) as [cls|]; [|done]. cbn.
  by rewrite !insert_delete_eq, !insert_insert_eq.
Qed.

Section round_trip.
Context (w : ECS.t) (this : EntityId) (self : Entity.t) (T : string) (props : Props).
Hypothesis Hw : wf_world w.
Hypothesis Hq : wf_queries w.
Hypothesis Hself : ECS.entities w !! this = Some self.
Hypothesis HT : is_Some (ECS.components w !! T).

Local Abbreviation self1 := (attach_to self T props).
Local Abbreviation w1 := (attached w this self T props).
Local Abbreviation self2 := (detach_from (attach_to self T props) T).
Local Abbreviation w2 := (detached (attached w this self T props) this
                               (attach_to self T props) T).
Local Abbreviation rebuild := (detach_rebuild w2 T).
Local Abbreviation w2' := (after_detach (attached w this self T props) this
                                    (attach_to self T props) T).
Local Abbreviation w3 := (attached w2' this self2 T props).

Lemma once_world : exec (AddComponent this T props) w = w1.
Proof. cbn [exec]. by rewrite (addComponent_registered _ _ self). Qed.

Lemma w1_self : ECS.entities w1 !! this = Some self1.
Proof. cbn. by rewrite lookup_insert_eq. Qed.

Lemma w1_wf : wf_world w1 ∧ wf_queries w1.
Proof. split; [by apply wf_world_attached | by apply wf_queries_attached]. Qed.

Lemma round_trip_world :
  run [AddComponent this T props; RemoveComponent this T; AddComponent this T props] w
  = w3.
Proof.
  rewrite run_cons, once_world. rewrite run_cons. cbn [exec].
  destruct (removeComponent_held w1 this self1 T) as (c & -> & _).
  - apply w1_self.
  - cbn. rewrite lookup_insert_eq. by eexists.
  - cbn. by apply is_Some_mark_present.
  - cbn [snd]. rewrite refresh_queries_using_resolved.
    + cbn [snd run foldl exec]. fold (detach_rebuild w2 T). fold w2'.
      rewrite (addComponent_registered _ _ self2); [done| |].
      * cbn. by rewrite lookup_insert_eq.
      * cbn. by apply is_Some_mark_absent, is_Some_mark_present.
    + destruct w1_wf as [_ Hq1]. eapply Forall_impl; [exact Hq1|].
      intros [key q] Hok. cbn [snd].
      eapply resolves_mono; [|by apply ok_resolves].
      intros n. apply is_Some_mark_absent.
Qed.

Lemma round_trip_entities : ECS.entities w3 = ECS.entities w1.
Proof.
  cbn. rewrite attach_detach_attach_entity. by rewrite !insert_insert_eq.
Qed.

Lemma round_trip_components : ECS.components w3 = ECS.components w1.
Proof.
  cbn. apply mark_present_absent_present.
Qed.

Lemma round_trip_query key q :
  query_ok w q →
  let q1 := componentAddedToEntity q self1 in
  let q3 := componentAddedToEntity (rebuild (key, q1)).2 (attach_to self2 T props) in
  Query.components q3 = Query.components q1
  ∧ Query.component_names q3 = Query.component_names q1
  ∧ Query.logic q3 = Query.logic q1
  ∧ (T ∉ Query.component_names q1 → q3 = q1)
  ∧ (NoDup (Query.component_names q1) →
     dom (Query.entities q3) = dom (Query.entities q1)).
Proof.
  intros Hok q1 q3.
  assert (attach_to self2 T props = self1) as Hs
    by apply attach_detach_attach_entity.
  destruct (componentAddedToEntity_meta q self1) as (Hc1 & Hn1 & Hl1).
  assert (T ∉ Query.component_names q1 → q3 = q1) as Hsame.
  { intros HTn. unfold q3, detach_rebuild. cbn [snd fst]. unfold includes.
    rewrite bool_decide_eq_false_2 by done. rewrite Hs.
    apply componentAddedToEntity_idem. }
  assert (query_ok w1 q1) as Hok1 by by apply query_ok_attached.
  assert (query_ok w3 q3) as Hok3.
  { unfold q3. apply query_ok_attached.
    - apply (wf_world_ext w2); [done|done|].
      apply wf_world_detached; [apply w1_self | apply w1_wf].
    - cbn. by rewrite lookup_insert_eq.
    - apply (query_ok_mono w2); [done|done|]. unfold detach_rebuild. cbn [snd fst].
      apply query_ok_detached; [apply w1_wf | apply w1_self | done]. }
  destruct (componentAddedToEntity_meta (rebuild (key, q1)).2 (attach_to self2 T props))
    as (Hc3 & Hn3 & Hl3).
  assert (Query.components (rebuild (key, q1)).2 = Query.components q1
          ∧ Query.component_names (rebuild (key, q1)).2 = Query.component_names q1
          ∧ Query.logic (rebuild (key, q1)).2 = Query.logic q1) as (Hc2 & Hn2 & Hl2).
  { unfold detach_rebuild. cbn [snd fst]. by destruct (includes _ T). }
  split; [by rewrite <- Hc2|]. split; [by rewrite <- Hn2|].
  split; [by rewrite <- Hl2|]. split; [done|].
  intros Hnd. destruct (decide (T ∈ Query.component_names q1)) as [HTn|HTn].
  - assert (Query.component_names q1 ≠ []) as Hne.
    { intros Hnil. rewrite Hnil in HTn. by apply elem_of_nil in HTn. }
    pose proof (ok_exact _ _ Hok1 Hnd Hne) as He1.
    assert (Query.component_names q3 = Query.component_names q1) as Hn31
      by by rewrite <- Hn2.
    pose proof (ok_exact _ _ Hok3) as He3. rewrite Hn31 in He3.
    specialize (He3 Hnd Hne). unfold exact in *. rewrite He1, He3, Hn31.
    apply matching_ext, round_trip_entities.
  - by rewrite Hsame.
Qed.

Lemma round_trip_queries :
  Forall2 (λ kq1 kq3,
             kq3.1 = kq1.1
             ∧ Query.components kq3.2 = Query.components kq1.2
             ∧ Query.component_names kq3.2 = Query.component_names kq1.2
             ∧ Query.logic kq3.2 = Query.logic kq1.2
             ∧ (T ∉ Query.component_names kq1.2 → kq3.2 = kq1.2)
             ∧ (NoDup (Query.component_names kq1.2) →
                dom (Query.entities kq3.2) = dom (Query.entities kq1.2)))
          (ECS.queries w1) (ECS.queries w3).
Proof.
  assert (∀ l, Forall (λ kq, query_ok w kq.2) l →
    Forall2 (λ kq1 kq3,
             kq3.1 = kq1.1
             ∧ Query.components kq3.2 = Query.components kq1.2
             ∧ Query.component_names kq3.2 = Query.component_names kq1.2
             ∧ Query.logic kq3.2 = Query.logic kq1.2
             ∧ (T ∉ Query.component_names kq1.2 → kq3.2 = kq1.2)
             ∧ (NoDup (Query.component_names kq1.2) →
                dom (Query.entities kq3.2) = dom (Query.entities kq1.2)))
      (map (λ kq, (kq.1, componentAddedToEntity kq.2 self1)) l)
      (map (λ kq, (kq.1, componentAddedToEntity kq.2 (attach_to self2 T props)))
           (rebuild <$> map (λ kq, (kq.1, componentAddedToEntity kq.2 self1)) l)))
    as Hall.
  { induction 1 as [|[key q] qs Hok _ IH]; [constructor|].
    cbn [map fmap list_fmap]. constructor; [|exact IH].
    cbn [fst snd]. split; [done|]. by apply (round_trip_query key). }
  exact (Hall _ Hq).
Qed.
End round_trip.

(** C7, as stated, fails.  With a neighbour [f] that was attached after the
    query on [["T"]] was compiled, one attach on [e] leaves the entity
    object under [f] in the cache, while attach, detach, attach leaves
    [true] there.  With the query on [["T"; "T"]], the two runs do not even
    agree on the keys: [f] is missing after one attach and present after
    the three calls. *)
Lemma round_trip_changes_caches :
  (cached "T" (run (attach_once "e" "T" ∅) (run (neighbour_script ["T"]) new_ECS))
     !! "f" = Some (VEntity "f")
   ∧ cached "T" (run (attach_detach_attach "e" "T" ∅)
                     (run (neighbour_script ["T"]) new_ECS))
     !! "f" = Some VTrue)
  ∧ (cached "T,T" (run (attach_once "e" "T" ∅)
                       (run (neighbour_script ["T"; "T"]) new_ECS))
     !! "f" = None
   ∧ cached "T,T" (run (attach_detach_attach "e" "T" ∅)
                       (run (neighbour_script ["T"; "T"]) new_ECS))
     !! "f" = Some VTrue).
Proof. repeat split; vm_compute; reflexivity. Qed.

(** C7, amended.  In a world reached from [new ECS()] by ordinary calls
    that draw unique entity ids and compile queries from registered names
    only, for an entity of the world, a registered type of an ordinary
    name and an ordinary property bag, attach, detach, attach
    leaves the same entity table (so the same components with the same
    properties on every entity) and the same presence tables as one attach.
    The query table has the same keys in the same order, each query keeps
    its compiled lists, a query that does not use the type is identical,
    and a query whose names are pairwise distinct has the same ids as keys
    of its cache; the values stored under those ids may differ. *)
Theorem round_trip_same (cs : list Call) (this : EntityId) (self : Entity.t)
    (T : string) (props : Props) :
  legal cs new_ECS = true → ordinary cs = true → resolving cs new_ECS = true →
  ordinary_class T = true → ordinary_bag props = true →
  ECS.entities (run cs new_ECS) !! this = Some self →
  is_Some (ECS.components (run cs new_ECS) !! T) →
  let once := run (attach_once this T props) (run cs new_ECS) in
  let thrice := run (attach_detach_attach this T props) (run cs new_ECS) in
  ECS.entities thrice = ECS.entities once
  ∧ ECS.components thrice = ECS.components once
  ∧ Forall2 (λ kq1 kq3,
               kq3.1 = kq1.1
               ∧ Query.components kq3.2 = Query.components kq1.2
               ∧ Query.component_names kq3.2 = Query.component_names kq1.2
               ∧ Query.logic kq3.2 = Query.logic kq1.2
               ∧ (T ∉ Query.component_names kq1.2 → kq3.2 = kq1.2)
               ∧ (NoDup (Query.component_names kq1.2) →
                  dom (Query.entities kq3.2) = dom (Query.entities kq1.2)))
            (ECS.queries once) (ECS.queries thrice).
Proof.
  intros Hl _ Hr _ _ Hself HT once thrice.
  destruct (wf_run cs new_ECS Hl Hr wf_world_new wf_queries_new) as [Hw Hq].
  unfold once, thrice, attach_once, attach_detach_attach.
  rewrite (round_trip_world _ _ self) by done.
  rewrite run_cons, (once_world _ _ self) by done. cbn [run foldl].
  split; [by apply round_trip_entities|].
  split; [by apply round_trip_components|].
  by apply round_trip_queries.
Qed.

Lemma round_trip_same_witness :
  ECS.entities (run (attach_detach_attach "e2" "Position" ∅)
                    (run attach_detach_script new_ECS))
  = ECS.entities (run (attach_once "e2" "Position" ∅)
                      (run attach_detach_script new_ECS))
  ∧ ECS.components (run (attach_detach_attach "e2" "Position" ∅)
                        (run attach_detach_script new_ECS))
    = ECS.components (run (attach_once "e2" "Position" ∅)
                          (run attach_detach_script new_ECS)).
Proof.
  assert (legal attach_detach_script new_ECS = true) as H1
    by (vm_compute; reflexivity).
  assert (resolving attach_detach_script new_ECS = true) as H2
    by (vm_compute; reflexivity).
  assert (ECS.entities (run attach_detach_script new_ECS) !! "e2"
          = Some (Entity.mk "e2"
                    {[ "Velocity" := Component.mk "Velocity" ∅ (Some "e2") ]}
                    {[ "Velocity" := Component.mk "Velocity" ∅ (Some "e2") ]})) as H3
    by (vm_compute; reflexivity).
  assert (is_Some (ECS.components (run attach_detach_script new_ECS) !! "Position"))
    as H4 by (vm_compute; by eexists).
  assert (ordinary attach_detach_script = true) as H5 by (vm_compute; reflexivity).
  assert (ordinary_class "Position" = true) as H6 by (vm_compute; reflexivity).
  assert (ordinary_bag ∅ = true) as H7 by (vm_compute; reflexivity).
  destruct (round_trip_same attach_detach_script "e2" _ "Position" ∅
              H1 H5 H2 H6 H7 H3 H4)
    as (He & Hc & _).
  split; [exact He | exact Hc].
Defined.

(** ** The ['!'] prefix *)

(** C9, as stated, fails on a token with two marks: only one character is
    sliced off, so [["!!A"]] compiles to the name ["!A"], which no class
    has, and its rebuild throws; the list with the prefix removed, be it
    [["!A"]] or [["A"]], compiles to the name ["A"] and matches the
    holder. *)
Lemma one_mark_is_stripped :
  (compile (run holder_script new_ECS) ["!!A"] [] []).2 = ["!A"]
  ∧ (new_Query (run holder_script new_ECS) ["!!A"]).1
    = Throw (TypeError "Cannot read properties of undefined (reading 'entities')")
  ∧ new_Query (run holder_script new_ECS) ["!A"]
    = (Normal tt, Query.mk [Some "A"] ["A"] ["!A"] {[ "e1" := VTrue ]})
  ∧ new_Query (run holder_script new_ECS) ["A"]
    = (Normal tt, Query.mk [Some "A"] ["A"] ["A"] {[ "e1" := VTrue ]}).
Proof. repeat split; vm_compute; reflexivity. Qed.

Lemma token_name_idem tok :
  startsWith_bang (token_name tok) = false → token_name (token_name tok) = token_name tok.
Proof. intros H. unfold token_name at 1. by rewrite H. Qed.

Lemma refresh_logic w cs ns l l' m :
  (refresh w (Query.mk cs ns l m)).1 = (refresh w (Query.mk cs ns l' m)).1
  ∧ Query.entities (refresh w (Query.mk cs ns l m)).2
    = Query.entities (refresh w (Query.mk cs ns l' m)).2
  ∧ Query.components (refresh w (Query.mk cs ns l m)).2 = cs
  ∧ Query.component_names (refresh w (Query.mk cs ns l m)).2 = ns.
Proof.
  unfold refresh. cbn [Query.components].
  by destruct (refresh_loop w cs (keys (ECS.entities w)) ∅) as [c ents].
Qed.

Lemma componentAddedToEntity_logic q q' e :
  Query.components q = Query.components q' →
  Query.component_names q = Query.component_names q' →
  Query.entities q = Query.entities q' →
  Query.entities (componentAddedToEntity q e)
  = Query.entities (componentAddedToEntity q' e).
Proof.
  intros Hc Hn He. unfold componentAddedToEntity. rewrite Hc, Hn.
  destruct (Nat.eqb _ _); cbn; by rewrite He.
Qed.

(** C9, amended.  A token is compiled to its name with one leading ['!']
    sliced off, and that name is added to the required lists like any
    other; nothing is ever excluded.  For a logic list in which no token
    carries a second ['!'] behind the first, the query compiled from the
    list and the query compiled from the list with the prefixes removed
    have the same references and names, their rebuilds return or throw
    alike and leave the same cache, and the attach path leaves the same
    cache for every entity. *)
Theorem negation_inert (w : ECS.t) (logic : list string) :
  Forall (λ tok, startsWith_bang (token_name tok) = false) logic →
  (∀ n, token_name (String "!" n) = n)
  ∧ compile w logic [] [] = (class_ref w ∘ token_name <$> logic, token_name <$> logic)
  ∧ compile w (token_name <$> logic) [] [] = compile w logic [] []
  ∧ (new_Query w (token_name <$> logic)).1 = (new_Query w logic).1
  ∧ Query.entities (new_Query w (token_name <$> logic)).2
    = Query.entities (new_Query w logic).2
  ∧ ∀ e, Query.entities
           (componentAddedToEntity (new_Query w (token_name <$> logic)).2 e)
         = Query.entities (componentAddedToEntity (new_Query w logic).2 e).
Proof.
  intros Hone.
  assert (token_name <$> (token_name <$> logic) = token_name <$> logic) as Hn.
  { rewrite <- list_fmap_compose. apply Forall_fmap_ext.
    eapply Forall_impl; [exact Hone|]. intros tok. apply token_name_idem. }
  assert (class_ref w ∘ token_name <$> (token_name <$> logic)
          = class_ref w ∘ token_name <$> logic) as Hc.
  { rewrite !(list_fmap_compose token_name (class_ref w)). by rewrite Hn. }
  split; [done|]. split; [by rewrite compile_spec|].
  split; [by rewrite !compile_spec, Hn, Hc|].
  rewrite !new_Query_spec, Hn, Hc.
  destruct (refresh_logic w (class_ref w ∘ token_name <$> logic) (token_name <$> logic)
              (token_name <$> logic) logic ∅) as (H1 & H2 & H3 & H4).
  destruct (refresh_logic w (class_ref w ∘ token_name <$> logic) (token_name <$> logic)
              logic logic ∅) as (_ & _ & H5 & H6).
  split; [done|]. split; [done|]. intros e.
  apply componentAddedToEntity_logic; congruence.
Qed.

Lemma negation_inert_witness :
  Query.entities (new_Query (run holder_script new_ECS) ["A"; "A"]).2
  = Query.entities (new_Query (run holder_script new_ECS) ["!A"; "A"]).2.
Proof.
  assert (Forall (λ tok, startsWith_bang (token_name tok) = false) ["!A"; "A"]) as H
    by (repeat constructor).
  destruct (negation_inert (run holder_script new_ECS) ["!A"; "A"] H)
    as (_ & _ & _ & _ & He & _).
  exact He.
Defined.

(** ** What the cache stores *)





(** * Further properties *)

(** ** The attach path and repeated names *)

Lemma count_reaches_length (names ks : list string) :
  NoDup ks →
  length (filter (λ p, includes names p = true) ks) = length names →
  NoDup names ∧ Forall (λ n, n ∈ ks) names.
Proof.
  intros Hks Hlen.
  set (hit := filter (λ p, includes names p = true) ks) in *.
  assert (NoDup hit) as Hhit by by apply NoDup_filter.
  assert (hit ≡ₚ names) as Hperm.
  { apply submseteq_length_Permutation; [|lia].
    apply NoDup_submseteq; [done|]. intros x Hx.
    apply list_elem_of_filter in Hx as [Hx _].
    unfold includes in Hx. by apply bool_decide_eq_true in Hx. }
  split; [by rewrite <- Hperm|].
  apply Forall_forall. intros n Hn. rewrite <- Hperm in Hn.
  by apply list_elem_of_filter in Hn as [_ Hn].
Qed.

(** When the attach path writes, the names are pairwise distinct and the
    entity holds every one of them. *)
Lemma componentAddedToEntity_writes q e :
  length (Query.components q) = length (Query.component_names q) →
  componentAddedToEntity q e = q
  ∨ (NoDup (Query.component_names q)
     ∧ holds_all (Query.component_names q) e
     ∧ componentAddedToEntity q e
       = set_cache (<[Entity.id e := VEntity (Entity.id e)]> (Query.entities q)) q).
Proof.
  intros Hlen. unfold componentAddedToEntity.
  destruct (Nat.eqb _ _) eqn:Hc; [|by left]. right.
  apply Nat.eqb_eq in Hc. rewrite foldl_count, Hlen in Hc. cbn [Nat.add] in Hc.
  apply count_reaches_length in Hc as [Hnd Hall]; [|apply NoDup_keys].
  split; [done|]. split; [|done].
  eapply Forall_impl; [exact Hall|]. intros n Hn. by apply elem_of_keys in Hn.
Qed.

Lemma new_Query_lists w logic :
  Query.components (new_Query w logic).2 = (class_ref w ∘ token_name <$> logic)
  ∧ Query.component_names (new_Query w logic).2 = (token_name <$> logic)
  ∧ Query.logic (new_Query w logic).2 = logic.
Proof.
  rewrite new_Query_spec. unfold refresh. cbn [Query.components].
  by destruct (refresh_loop _ _ _ _).
Qed.

(** X1.  A query compiled from a list in which a name occurs twice (as
    [["A"; "A"]] or [["A"; "!A"]]) is never changed by the attach path,
    whatever the entity holds. *)
Theorem attach_path_skips_repeated_names (w : ECS.t) (logic : list string)
    (entity : Entity.t) :
  ¬ NoDup (token_name <$> logic) →
  componentAddedToEntity (new_Query w logic).2 entity = (new_Query w logic).2.
Proof.
  intros Hdup. destruct (new_Query_lists w logic) as (Hc & Hn & _).
  destruct (componentAddedToEntity_writes (new_Query w logic).2 entity)
    as [Hsame|(Hnd & _)]; [|done|].
  - by rewrite Hc, Hn, !length_fmap.
  - by rewrite Hn in Hnd.
Qed.

Lemma attach_path_skips_repeated_names_witness :
  componentAddedToEntity (new_Query new_ECS ["A"; "!A"]).2
    (Entity.mk "e1" ∅ {[ "A" := Component.mk "A" ∅ (Some "e1") ]})
  = (new_Query new_ECS ["A"; "!A"]).2.
Proof.
  apply attach_path_skips_repeated_names.
  intros Hnd. vm_compute in Hnd. apply NoDup_cons in Hnd as [Hin _].
  apply Hin. by left.
Defined.

(** ** What a call does to the queries already stored *)

Lemma assoc_map_values (f : Query.t → Query.t) k qs :
  assoc k (map (λ kq, (kq.1, f kq.2)) qs) = f <$> assoc k qs.
Proof.
  induction qs as [|[k1 q1] qs IH]; [done|]. cbn [map assoc fst snd].
  by destruct (String.eqb k k1).
Qed.

Lemma assoc_set_other k k' q qs : k ≠ k' → assoc k (assoc_set k' q qs) = assoc k qs.
Proof.
  intros Hk. induction qs as [|[k1 q1] qs IH]; cbn [assoc_set assoc].
  - by rewrite (proj2 (String.eqb_neq k k')).
  - destruct (String.eqb k' k1) eqn:Hk1; cbn [assoc].
    + apply String.eqb_eq in Hk1 as <-. by rewrite (proj2 (String.eqb_neq k k')).
    + by rewrite IH.
Qed.

Lemma refresh_same w q : same_query q (refresh w q).2.
Proof. unfold refresh. by destruct (refresh_loop _ _ _ _). Qed.

Lemma assoc_refresh_queries_using w T k q qs :
  assoc k qs = Some q →
  ∃ q', assoc k (refresh_queries_using w T qs).2 = Some q'
        ∧ (q' = q ∨ (includes (Query.component_names q) T = true
                      ∧ q' = (refresh w q).2)).
Proof.
  induction qs as [|[k1 q1] qs IH]; [done|]. cbn [assoc refresh_queries_using].
  destruct (String.eqb k k1) eqn:Hk.
  - intros [= ->]. destruct (includes (Query.component_names q) T) eqn:Hin.
    + destruct (refresh w q) as [[[]|e] q'] eqn:Hr.
      * destruct (refresh_queries_using w T qs) as [c rest]. cbn [snd assoc].
        rewrite Hk. eexists. split; [done|]. right. done.
      * cbn [snd assoc]. rewrite Hk. eexists. split; [done|]. right. done.
    + destruct (refresh_queries_using w T qs) as [c rest]. cbn [snd assoc].
      rewrite Hk. eexists. split; [done|]. by left.
  - intros Hq. destruct (IH Hq) as (q' & Hq' & Hcase).
    destruct (includes (Query.component_names q1) T).
    + destruct (refresh w q1) as [[[]|e] q1'].
      * destruct (refresh_queries_using w T qs) as [c rest]. cbn [snd assoc] in *.
        rewrite Hk. eauto.
      * cbn [snd assoc]. rewrite Hk. exists q. split; [done|by left].
    + destruct (refresh_queries_using w T qs) as [c rest]. cbn [snd assoc] in *.
      rewrite Hk. eauto.
Qed.

Lemma same_query_refl q : same_query q q.
Proof. done. Qed.

Lemma stored_query_step (c : Call) (w : ECS.t) (k : string) (q : Query.t) :
  assoc k (ECS.queries w) = Some q →
  ∃ q', assoc k (ECS.queries (exec c w)) = Some q'
        ∧ same_query q q'
        ∧ ((∀ this T, c = RemoveComponent this T → T ∉ Query.component_names q) →
           dom (Query.entities q) ⊆ dom (Query.entities q')).
Proof.
  intros Hq.
  assert (∃ q', assoc k (ECS.queries w) = Some q' ∧ same_query q q' ∧
            ((∀ this T, c = RemoveComponent this T → T ∉ Query.component_names q) →
             dom (Query.entities q) ⊆ dom (Query.entities q'))) as Hkeep.
  { exists q. split; [done|]. split; [done|]. done. }
  destruct c as [s|n|id|this n props|this n|logic|logic]; cbn [exec].
  - destruct (registerSystem_frame w s) as (_ & _ & ->). exact Hkeep.
  - destruct (ECS.components w !! n) as [cls|] eqn:Hn.
    + by rewrite registerComponent_again.
    + by rewrite registerComponent_fresh.
  - exact Hkeep.
  - destruct (ECS.entities w !! this) as [self|] eqn:Hself;
      [|by rewrite addComponent_no_object].
    destruct (ECS.components w !! n) as [cls|] eqn:Hn;
      [|by rewrite (addComponent_unregistered _ _ self)].
    rewrite (addComponent_registered _ _ self) by done.
    cbn [snd attached set_queries ECS.queries emit set_components set_entities].
    rewrite (assoc_map_values (λ q0, componentAddedToEntity q0 (attach_to self n props))), Hq.
    cbn [fmap option_fmap option_map].
    eexists. split; [done|]. split; [apply componentAddedToEntity_meta|].
    intros _. destruct (componentAddedToEntity_cases q (attach_to self n props))
      as [->| ->]; [done|].
    cbn [set_cache Query.entities]. rewrite dom_insert_L. apply union_subseteq_r.
  - destruct (ECS.entities w !! this) as [self|] eqn:Hself;
      [|by rewrite removeComponent_no_object].
    destruct (Entity.root self !! n) as [x|] eqn:Hr;
      [|by rewrite (removeComponent_not_held _ _ self)].
    destruct (ECS.components w !! n) as [cls|] eqn:Hn;
      [|by rewrite (removeComponent_held_unregistered _ _ self)].
    destruct (removeComponent_held w this self n) as (c' & -> & _); [done..|].
    cbn [snd set_queries ECS.queries].
    destruct (assoc_refresh_queries_using (detached w this self n) n k q
                (ECS.queries w) Hq) as (q' & Hq' & Hcase).
    exists q'. split; [done|]. destruct Hcase as [->|[Hin ->]].
    + split; [done|]. done.
    + split; [apply refresh_same|]. intros Hc. exfalso.
      apply (Hc this n eq_refl). unfold includes in Hin.
      by apply bool_decide_eq_true in Hin.
  - destruct (assoc (logic_key logic) (ECS.queries w)) as [q0|] eqn:Hk.
    + by rewrite createQuery_exists.
    + destruct (decide (constructible w logic)) as [Hc|Hc].
      * rewrite createQuery_creates by done. cbn [snd set_queries ECS.queries].
        rewrite assoc_set_other; [exact Hkeep|]. intros ->. congruence.
      * rewrite createQuery_throws; [done|done|..]; intros H; apply Hc;
          [by left|by right].
  - destruct (assoc (logic_key logic) (ECS.queries w)) as [q0|] eqn:Hk.
    + by rewrite query_cached.
    + destruct (decide (constructible w logic)) as [Hc|Hc].
      * rewrite query_creates by done. cbn [snd set_queries ECS.queries].
        rewrite assoc_set_other; [exact Hkeep|]. intros ->. congruence.
      * rewrite query_throws; [done|done|..]; intros H; apply Hc;
          [by left|by right].
Qed.

Lemma stored_query_run cs w k q :
  assoc k (ECS.queries w) = Some q →
  ∃ q', assoc k (ECS.queries (run cs w)) = Some q' ∧ same_query q q'.
Proof.
  revert w q. induction cs as [|c cs IH]; intros w q Hq.
  - exists q. by split.
  - rewrite run_cons.
    destruct (stored_query_step c w k q Hq) as (q1 & Hq1 & Hs1 & _).
    destruct (IH _ _ Hq1) as (q2 & Hq2 & Hs2). exists q2. split; [done|].
    destruct Hs1 as (? & ? & ?), Hs2 as (? & ? & ?). repeat split; congruence.
Qed.

(** X2.  No call sequence removes or recompiles a stored query, and an id
    leaves a cache only through a detach of one of the query's own types:
    after the calls the key still leads to a query with the same compiled
    lists, and if none of the calls is a [removeComponent] of a name the
    query uses, every id cached before is cached after. *)
Theorem stored_query_survives (cs : list Call) (w : ECS.t) (k : string) (q : Query.t) :
  assoc k (ECS.queries w) = Some q →
  ∃ q', assoc k (ECS.queries (run cs w)) = Some q'
        ∧ same_query q q'
        ∧ (Forall (λ c, ∀ this T, c = RemoveComponent this T →
                        T ∉ Query.component_names q) cs →
           dom (Query.entities q) ⊆ dom (Query.entities q')).
Proof.
  revert w q. induction cs as [|c cs IH]; intros w q Hq.
  - exists q. split; [done|]. split; done.
  - rewrite run_cons.
    destruct (stored_query_step c w k q Hq) as (q1 & Hq1 & Hs1 & Hd1).
    destruct (IH _ _ Hq1) as (q2 & Hq2 & Hs2 & Hd2). exists q2. split; [done|].
    destruct Hs1 as (Hc1 & Hn1 & Hl1), Hs2 as (Hc2 & Hn2 & Hl2).
    split; [repeat split; congruence|].
    intros Hcs. apply Forall_cons in Hcs as [Hc Hcs].
    transitivity (dom (Query.entities q1)); [by apply Hd1|].
    apply Hd2. by rewrite Hn1.
Qed.

Lemma stored_query_survives_witness :
  ∃ q', assoc "Position,Velocity"
          (ECS.queries (run [NewEntity "e3"; AddComponent "e3" "Position" ∅]
                            (run attach_detach_script new_ECS))) = Some q'
        ∧ Query.component_names q' = ["Position"; "Velocity"]
        ∧ "e1" ∈ dom (Query.entities q').
Proof.
  destruct (stored_query_survives [NewEntity "e3"; AddComponent "e3" "Position" ∅]
              (run attach_detach_script new_ECS) "Position,Velocity"
              (Query.mk [Some "Position"; Some "Velocity"] ["Position"; "Velocity"]
                        ["Position"; "Velocity"] {[ "e1" := VEntity "e1" ]}))
    as (q' & Hq' & (_ & Hn & _) & Hd).
  - vm_compute. reflexivity.
  - exists q'. split; [exact Hq'|]. split; [exact Hn|]. apply Hd.
    + repeat constructor; intros ? ? [=].
    + cbn [Query.entities]. rewrite dom_singleton_L. by apply elem_of_singleton.
Defined.

(** ** References are resolved once *)

(** X3.  A class reference is looked up when the query is compiled and
    never again.  If a name of an ordinary list was not registered then,
    the query that [query] stored stays in the table, and at every later
    time, reached by ordinary calls, at which the world holds an entity
    its rebuild throws a TypeError and leaves the cache empty, whatever
    was registered in between. *)
Theorem unresolved_query_never_recovers (w : ECS.t) (logic : list string)
    (cs : list Call) :
  ordinary_logic logic = true → ordinary cs = true →
  ECS.entities w = ∅ →
  ¬ all_registered w logic →
  assoc (logic_key logic) (ECS.queries w) = None →
  ∃ q, assoc (logic_key logic) (ECS.queries (run cs (query logic w).2)) = Some q
       ∧ Query.logic q = logic
       ∧ (ECS.entities (run cs (query logic w).2) ≠ ∅ →
          refresh (run cs (query logic w).2) q
          = (Throw (TypeError "Cannot read properties of undefined (reading 'entities')"),
             set_cache ∅ q)).
Proof.
  intros _ _ Hempty Hreg Hk. rewrite query_creates; [|done|by right]. cbn [snd].
  destruct (stored_query_run cs
              (set_queries (assoc_set (logic_key logic) (compiled w logic)) w)
              (logic_key logic) (compiled w logic)) as (q & Hq & Hc & Hn & Hl).
  { cbn. apply assoc_set_lookup. }
  exists q. split; [done|]. split; [done|]. intros Hne.
  apply refresh_unresolved; [|done]. rewrite Hc. cbn [compiled Query.components].
  intros Hall. apply Hreg. unfold all_registered.
  rewrite Forall_fmap in Hall. rewrite Forall_forall in Hall |- *.
  intros tok Htok. specialize (Hall tok Htok). cbn in Hall.
  unfold resolves, class_ref in Hall.
  destruct (js_in (token_name tok) (ECS.components w)) eqn:Hin.
  - by apply js_in_true in Hin.
  - cbn in Hall. by destruct Hall.
Qed.

Lemma unresolved_query_never_recovers_witness :
  ∃ q, assoc "A" (ECS.queries (run late_registration_script (query ["A"] new_ECS).2))
       = Some q
       ∧ (refresh (run late_registration_script (query ["A"] new_ECS).2) q).1
         = Throw (TypeError "Cannot read properties of undefined (reading 'entities')").
Proof.
  destruct (unresolved_query_never_recovers new_ECS ["A"] late_registration_script)
    as (q & Hq & _ & Hthrow).
  - vm_compute. reflexivity.
  - vm_compute. reflexivity.
  - reflexivity.
  - intros Hall. apply Forall_cons in Hall as [[c Hc] _]. vm_compute in Hc. discriminate.
  - reflexivity.
  - exists q. split; [exact Hq|]. rewrite Hthrow; [reflexivity|].
    intros He. apply (f_equal (λ m, m !! "e1")) in He. vm_compute in He. discriminate.
Defined.

(** ** The key of a query *)

(** X4.  The table of queries is keyed by the comma-joined list.  Once
    [query] has returned for a list, [query] on any list with the same join
    (the same list again, or [["A,B"]] after [["A"; "B"]]) returns the same
    cache and leaves the world as it is: nothing is compiled and nothing
    is logged. *)
Theorem query_shares_joined_key (w w1 : ECS.t) (logic1 logic2 : list string)
    (cache : gmap EntityId CacheVal) :
  logic_key logic1 = logic_key logic2 →
  query logic1 w = (Normal cache, w1) →
  query logic2 w1 = (Normal cache, w1).
Proof.
  intros Hkey Hq1.
  destruct (assoc (logic_key logic1) (ECS.queries w)) as [q|] eqn:Hk.
  - rewrite query_cached in Hq1 by done. injection Hq1 as <- <-.
    rewrite query_cached; rewrite <- Hkey; [done|by rewrite Hk].
  - destruct (decide (constructible w logic1)) as [Hc|Hc].
    + rewrite query_creates in Hq1 by done. injection Hq1 as <- <-.
      rewrite query_cached; rewrite <- Hkey; cbn.
      * unfold cached. cbn. by rewrite assoc_set_lookup.
      * by rewrite assoc_set_lookup.
    + rewrite query_throws in Hq1; [done|done|..]; intros H; apply Hc;
        [by left|by right].
Qed.

Lemma query_shares_joined_key_witness :
  query ["A,B"] (query ["A"; "B"] (run two_types_script new_ECS)).2
  = (Normal ∅, (query ["A"; "B"] (run two_types_script new_ECS)).2).
Proof.
  apply (query_shares_joined_key (run two_types_script new_ECS) _ ["A"; "B"] ["A,B"]).
  - reflexivity.
  - vm_compute. reflexivity.
Defined.

(** ** Attaching again *)

Lemma keys_same_dom {V} (m1 m2 : gmap string V) :
  dom m1 = dom m2 → keys m1 ≡ₚ keys m2.
Proof.
  intros Hd. apply NoDup_Permutation; [apply NoDup_keys..|]. intros k.
  by rewrite !elem_of_keys, <- !elem_of_dom, Hd.
Qed.

Lemma filter_length_Permutation {A} (P : A → Prop) `{∀ x, Decision (P x)} (l1 l2 : list A) :
  l1 ≡ₚ l2 → length (filter P l1) = length (filter P l2).
Proof. intros Hp. by rewrite Hp. Qed.

(** The attach path reads the entity's id and the names of its components,
    nothing else. *)
Lemma componentAddedToEntity_reads q e1 e2 :
  Entity.id e1 = Entity.id e2 →
  dom (Entity.components e1) = dom (Entity.components e2) →
  componentAddedToEntity q e1 = componentAddedToEntity q e2.
Proof.
  intros Hid Hd. unfold componentAddedToEntity. rewrite !foldl_count, Hid.
  by rewrite (filter_length_Permutation _ _ _ (keys_same_dom _ _ Hd)).
Qed.

Lemma attach_attach_entity self T p1 p2 :
  attach_to (attach_to self T p1) T p2 = attach_to self T p2.
Proof. unfold attach_to. cbn. by rewrite !insert_insert_eq. Qed.

Lemma mark_present_twice k i cs :
  mark_present k i (mark_present k i cs) = mark_present k i cs.
Proof.
  apply map_eq. intros n. unfold mark_present.
  rewrite !lookup_alter. case_decide; [|done]. subst n.
  rewrite !decide_True by done.
  destruct (cs !! k) as [cls|]; [|done]. cbn. by rewrite insert_insert_eq.
Qed.

(** X5.  Attaching a type the entity may already hold replaces the
    component: for a registered class of an ordinary name, ordinary
    property bags and an entity of an ordinary id, two attaches of the
    same type in a row leave the entity table (the second property bag),
    the presence tables, the systems and every query cache exactly as the
    second attach alone would. *)
Theorem attach_again_overwrites (w : ECS.t) (this : EntityId) (self : Entity.t)
    (T : string) (props1 props2 : Props) :
  ordinary_class T = true → ordinary_bag props1 = true →
  ordinary_bag props2 = true → ordinary_key (Entity.id self) = true →
  ECS.entities w !! this = Some self →
  is_Some (ECS.components w !! T) →
  let twice := run [AddComponent this T props1; AddComponent this T props2] w in
  let once := run [AddComponent this T props2] w in
  ECS.entities twice = ECS.entities once
  ∧ ECS.components twice = ECS.components once
  ∧ ECS.systems twice = ECS.systems once
  ∧ ECS.queries twice = ECS.queries once.
Proof.
  intros _ _ _ _ Hself HT twice once. unfold twice, once.
  rewrite !run_cons. cbn [run foldl exec].
  rewrite !(addComponent_registered w this self) by done. cbn [snd].
  rewrite (addComponent_registered _ this (attach_to self T props1)).
  - cbn [snd attached set_queries emit set_components set_entities
         ECS.entities ECS.components ECS.systems ECS.queries].
    rewrite attach_attach_entity, insert_insert_eq. cbn [attach_to Entity.id].
    rewrite mark_present_twice. repeat split.
    rewrite map_map. apply map_ext. intros [k q]. cbn [fst snd]. f_equal.
    rewrite (componentAddedToEntity_reads _ (attach_to self T props2)
               (attach_to self T props1)).
    + rewrite componentAddedToEntity_idem.
      apply componentAddedToEntity_reads; [done|]. cbn. by rewrite !dom_insert_L.
    + done.
    + cbn. by rewrite !dom_insert_L.
  - cbn. by rewrite lookup_insert_eq.
  - cbn. by apply is_Some_mark_present.
Qed.

Lemma attach_again_overwrites_witness :
  ECS.entities (run [AddComponent "e1" "A" {[ "x" := 1%Z ]};
                     AddComponent "e1" "A" {[ "x" := 2%Z ]}]
                    (run two_types_script new_ECS))
  = ECS.entities (run [AddComponent "e1" "A" {[ "x" := 2%Z ]}]
                      (run two_types_script new_ECS)).
Proof.
  assert (ECS.entities (run two_types_script new_ECS) !! "e1"
          = Some (Entity.mk "e1" {[ "A" := Component.mk "A" ∅ (Some "e1") ]}
                                 {[ "A" := Component.mk "A" ∅ (Some "e1") ]})) as H1
    by (vm_compute; reflexivity).
  assert (is_Some (ECS.components (run two_types_script new_ECS) !! "A")) as H2
    by (vm_compute; by eexists).
  assert (ordinary_class "A" = true) as H3 by (vm_compute; reflexivity).
  assert (ordinary_bag {[ "x" := 1%Z ]} = true) as H4 by (vm_compute; reflexivity).
  assert (ordinary_bag {[ "x" := 2%Z ]} = true) as H5 by (vm_compute; reflexivity).
  assert (ordinary_key "e1" = true) as H6 by (vm_compute; reflexivity).
  destruct (attach_again_overwrites _ "e1"
              (Entity.mk "e1" {[ "A" := Component.mk "A" ∅ (Some "e1") ]}
                              {[ "A" := Component.mk "A" ∅ (Some "e1") ]})
              "A" {[ "x" := 1%Z ]} {[ "x" := 2%Z ]} H3 H4 H5 H6 H1 H2)
    as (He & _).
  exact He.
Defined.

(** ** Detaching *)

Lemma refresh_queries_using_keys w T qs :
  (refresh_queries_using w T qs).2.*1 = qs.*1.
Proof.
  induction qs as [|[k q] qs IH]; [done|]. cbn [refresh_queries_using].
  destruct (includes (Query.component_names q) T).
  - destruct (refresh w q) as [[[]|e] q'].
    + destruct (refresh_queries_using w T qs) as [c rest]. cbn in *. by rewrite IH.
    + done.
  - destruct (refresh_queries_using w T qs) as [c rest]. cbn in *. by rewrite IH.
Qed.

(** X6.  [removeComponent] is silent and touches no table's keys: whether
    it returns or throws, it publishes no event and logs nothing, it leaves
    the systems, the set of entity ids, the set of registered classes and
    the keys of the query table as they were. *)
Theorem removeComponent_silent (w : ECS.t) (this : EntityId) (T : string) :
  ECS.trace (removeComponent this T w).2 = ECS.trace w
  ∧ ECS.systems (removeComponent this T w).2 = ECS.systems w
  ∧ dom (ECS.entities (removeComponent this T w).2) = dom (ECS.entities w)
  ∧ dom (ECS.components (removeComponent this T w).2) = dom (ECS.components w)
  ∧ (ECS.queries (removeComponent this T w).2).*1 = (ECS.queries w).*1.
Proof.
  destruct (ECS.entities w !! this) as [self|] eqn:Hself;
    [|by rewrite removeComponent_no_object].
  destruct (Entity.root self !! T) as [x|] eqn:Hr;
    [|by rewrite (removeComponent_not_held _ _ self)].
  assert (dom (<[this := detach_from self T]> (ECS.entities w)) = dom (ECS.entities w))
    as Hdom.
  { apply dom_insert_lookup_L. by eexists. }
  destruct (ECS.components w !! T) as [cls|] eqn:Hn.
  - destruct (removeComponent_held w this self T) as (c' & -> & _); [done..|].
    cbn [snd set_queries detached set_components set_entities ECS.trace ECS.systems
         ECS.entities ECS.components ECS.queries].
    split; [done|]. split; [done|]. split; [done|]. split.
    + apply set_eq. intros n. rewrite !elem_of_dom. apply is_Some_mark_absent.
    + apply refresh_queries_using_keys.
  - rewrite (removeComponent_held_unregistered _ _ self) by done.
    cbn [snd set_entities ECS.trace ECS.systems ECS.entities ECS.components ECS.queries].
    done.
Qed.

(** X7.  Detaching is not repeatable: after a [removeComponent] of a type
    of an ordinary name that the entity held, whether that call returned
    or threw, a second [removeComponent] of the same type throws the
    ReferenceError and leaves the world as the first call left it. *)
Theorem removeComponent_again_throws (w : ECS.t) (this : EntityId) (self : Entity.t)
    (T : string) :
  ordinary_class T = true →
  ECS.entities w !! this = Some self →
  is_Some (Entity.root self !! T) →
  removeComponent this T (removeComponent this T w).2
  = (Throw (ReferenceError "component_name is not defined"),
     (removeComponent this T w).2).
Proof.
  intros _ Hself Hr.
  apply (removeComponent_not_held _ _ (detach_from self T)).
  - destruct (ECS.components w !! T) as [cls|] eqn:Hn.
    + destruct (removeComponent_held w this self T) as (c' & -> & _); [done..|].
      cbn. by rewrite lookup_insert_eq.
    + rewrite (removeComponent_held_unregistered _ _ self) by done.
      cbn. by rewrite lookup_insert_eq.
  - cbn. by rewrite lookup_delete_eq.
Qed.

Lemma removeComponent_again_throws_witness :
  removeComponent "e1" "A" (removeComponent "e1" "A" (run two_types_script new_ECS)).2
  = (Throw (ReferenceError "component_name is not defined"),
     (removeComponent "e1" "A" (run two_types_script new_ECS)).2).
Proof.
  apply (removeComponent_again_throws _ "e1"
           (Entity.mk "e1" {[ "A" := Component.mk "A" ∅ (Some "e1") ]}
                           {[ "A" := Component.mk "A" ∅ (Some "e1") ]})).
  - vm_compute. reflexivity.
  - vm_compute. reflexivity.
  - vm_compute. by eexists.
Defined.

(** ** Components on entities *)

Lemma wf_components_entities w w' :
  ECS.entities w' = ECS.entities w → wf_components w → wf_components w'.
Proof. intros He Hc. unfold wf_components. by rewrite He. Qed.

Lemma wf_components_exec c w :
  wf_world w → wf_components w → wf_components (exec c w).
Proof.
  intros Hw Hc.
  destruct c as [s|n|id|this n props|this n|logic|logic]; cbn [exec].
  - destruct (registerSystem_frame w s) as (He & _). by apply (wf_components_entities w).
  - apply (wf_components_entities w); [|done].
    destruct (ECS.components w !! n) as [cls|] eqn:Hn.
    + by rewrite registerComponent_again.
    + by rewrite registerComponent_fresh.
  - intros i e n c. cbn. rewrite lookup_insert. case_decide; [|by apply Hc].
    intros [= <-]. cbn. by rewrite lookup_empty.
  - destruct (ECS.entities w !! this) as [self|] eqn:Hself;
      [|by rewrite addComponent_no_object].
    destruct (ECS.components w !! n) as [cls|] eqn:Hn;
      [|by rewrite (addComponent_unregistered _ _ self)].
    rewrite (addComponent_registered _ _ self) by done.
    intros i e m c. cbn. rewrite lookup_insert. case_decide; [|by apply Hc].
    subst i. intros [= <-]. cbn. rewrite lookup_insert. case_decide.
    + subst m. intros [= <-]. cbn. by rewrite (wf_id _ Hw _ _ Hself).
    + by apply Hc.
  - destruct (ECS.entities w !! this) as [self|] eqn:Hself;
      [|by rewrite removeComponent_no_object].
    destruct (Entity.root self !! n) as [x|] eqn:Hr;
      [|by rewrite (removeComponent_not_held _ _ self)].
    assert (wf_components (set_entities <[this := detach_from self n]> w)) as Hd.
    { intros i e m c. cbn. rewrite lookup_insert. case_decide; [|by apply Hc].
      subst i. intros [= <-]. cbn. intros Hm.
      apply lookup_delete_Some in Hm as [_ Hm]. by apply (Hc _ _ _ _ Hself). }
    destruct (ECS.components w !! n) as [cls|] eqn:Hn.
    + destruct (removeComponent_held w this self n) as (c' & -> & _); [done..|].
      by apply (wf_components_entities (set_entities <[this := detach_from self n]> w)).
    + by rewrite (removeComponent_held_unregistered _ _ self).
  - destruct (createQuery_frame w logic) as (He & _). by apply (wf_components_entities w).
  - destruct (query_frame w logic) as (He & _). by apply (wf_components_entities w).
Qed.

Lemma wf_components_run cs w :
  legal cs w = true → wf_world w → wf_components w → wf_components (run cs w).
Proof.
  revert w. induction cs as [|c cs IH]; intros w Hl Hw Hc; [done|].
  cbn [legal] in Hl. apply andb_true_iff in Hl as [Hok Hl].
  rewrite run_cons. apply IH; [done| |].
  - by apply wf_world_exec.
  - by apply wf_components_exec.
Qed.

(** X8.  In every world reached from [new ECS()] by ordinary calls that
    draw unique entity ids, an entity is stored under its own id, and each
    component
    it holds under a name is an instance of the class of that name, points
    back to that entity, is the same instance under [entity[name]] and
    [entity.components[name]], and its class is registered. *)
Theorem components_consistent (cs : list Call) :
  legal cs new_ECS = true → ordinary cs = true →
  ∀ id e n c,
    ECS.entities (run cs new_ECS) !! id = Some e →
    Entity.components e !! n = Some c →
    Entity.id e = id
    ∧ Component.entity c = Some id
    ∧ Component.class_name c = n
    ∧ Entity.root e !! n = Some c
    ∧ is_Some (ECS.components (run cs new_ECS) !! n).
Proof.
  intros Hl _ id e n c He Hc.
  pose proof (wf_world_run cs new_ECS Hl wf_world_new) as Hw.
  assert (wf_components new_ECS) as H0.
  { intros i e0 m c0. cbn. by rewrite lookup_empty. }
  pose proof (wf_components_run cs new_ECS Hl wf_world_new H0) as Hcomp.
  destruct (Hcomp _ _ _ _ He Hc) as [Hback Hclass].
  split; [by apply (wf_id _ Hw)|]. split; [done|]. split; [done|].
  split; [by rewrite (wf_root _ Hw _ _ He)|].
  apply (wf_held _ Hw _ _ _ He). by eexists.
Qed.

Lemma components_consistent_witness :
  Component.entity (Component.mk "Position" {[ "x" := 0%Z ]} (Some "e1")) = Some "e1"
  ∧ is_Some (ECS.components (run attach_detach_script new_ECS) !! "Position").
Proof.
  destruct (components_consistent attach_detach_script) with
    (id := "e1") (n := "Position")
    (c := Component.mk "Position" {[ "x" := 0%Z ]} (Some "e1"))
    (e := Entity.mk "e1"
            {[ "Position" := Component.mk "Position" {[ "x" := 0%Z ]} (Some "e1");
               "Velocity" := Component.mk "Velocity" ∅ (Some "e1") ]}
            {[ "Position" := Component.mk "Position" {[ "x" := 0%Z ]} (Some "e1");
               "Velocity" := Component.mk "Velocity" ∅ (Some "e1") ]})
    as (_ & Hb & _ & _ & Hr).
  - vm_compute. reflexivity.
  - vm_compute. reflexivity.
  - vm_compute. reflexivity.
  - vm_compute. reflexivity.
  - split; [exact Hb|exact Hr].
Defined.

(** ** Cache keys are entities *)

Lemma refresh_loop_dom w cs ids acc :
  dom (refresh_loop w cs ids acc).2 ⊆ list_to_set ids ∪ dom acc.
Proof.
  revert acc. induction ids as [|i ids IH]; intros acc; cbn [refresh_loop].
  - cbn. apply union_subseteq_r.
  - destruct (count_present w cs i 0) as [n|e].
    + etransitivity; [apply IH|]. rewrite list_to_set_cons.
      destruct (Nat.eqb n (length cs)); [rewrite dom_insert_L|];
        intros x; rewrite !elem_of_union; tauto.
    + cbn. apply union_subseteq_r.
Qed.

Lemma refresh_within w q : dom (Query.entities (refresh w q).2) ⊆ dom (ECS.entities w).
Proof.
  unfold refresh.
  pose proof (refresh_loop_dom w (Query.components q) (keys (ECS.entities w)) ∅) as Hd.
  destruct (refresh_loop _ _ _ _) as [c m]. cbn in *.
  intros i Hi. apply Hd in Hi. rewrite dom_empty_L, union_empty_r_L in Hi.
  apply elem_of_list_to_set in Hi. apply elem_of_dom. by apply elem_of_keys.
Qed.

Lemma refresh_queries_using_Forall (P : Query.t → Prop) w T qs :
  (∀ q, includes (Query.component_names q) T = true → P (refresh w q).2) →
  Forall (λ kq, P kq.2) qs →
  Forall (λ kq, P kq.2) (refresh_queries_using w T qs).2.
Proof.
  intros Hr. induction 1 as [|[k q] qs Hq Hqs IH]; [constructor|].
  cbn [refresh_queries_using]. cbn [snd] in Hq.
  destruct (includes (Query.component_names q) T) eqn:Hin.
  - specialize (Hr q Hin). destruct (refresh w q) as [[[]|e] q'].
    + destruct (refresh_queries_using w T qs) as [c rest]. cbn in *.
      by constructor.
    + cbn. by constructor.
  - destruct (refresh_queries_using w T qs) as [c rest]. cbn in *. by constructor.
Qed.

Lemma caches_within_grow w w' :
  dom (ECS.entities w) ⊆ dom (ECS.entities w') →
  ECS.queries w' = ECS.queries w →
  caches_within w → caches_within w'.
Proof.
  intros Hd Hq Hc. unfold caches_within. rewrite Hq.
  eapply Forall_impl; [exact Hc|]. intros [k q] Hsub. cbn in *.
  by etransitivity.
Qed.

Lemma caches_within_insert w k q :
  dom (Query.entities q) ⊆ dom (ECS.entities w) →
  caches_within w → caches_within (set_queries (assoc_set k q) w).
Proof.
  intros Hq Hc. unfold caches_within. cbn. apply Forall_forall. intros x Hx.
  apply elem_of_assoc_set in Hx as [->|Hx]; [done|].
  unfold caches_within in Hc. rewrite Forall_forall in Hc. by apply Hc.
Qed.

Lemma compiled_within w logic :
  dom (Query.entities (compiled w logic)) ⊆ dom (ECS.entities w).
Proof.
  cbn. unfold rebuilt. rewrite dom_fmap_L. apply dom_filter_subseteq.
Qed.

Lemma caches_within_exec c w :
  wf_world w → caches_within w → caches_within (exec c w).
Proof.
  intros Hw Hc.
  destruct c as [s|n|id|this n props|this n|logic|logic]; cbn [exec].
  - destruct (registerSystem_frame w s) as (He & _ & Hq).
    apply (caches_within_grow w); [by rewrite He|done|done].
  - apply (caches_within_grow w); [| |done];
      destruct (ECS.components w !! n) as [cls|] eqn:Hn;
      rewrite ?registerComponent_again, ?registerComponent_fresh by done; done.
  - apply (caches_within_grow w); [|done|done]. cbn. rewrite dom_insert_L.
    apply union_subseteq_r.
  - destruct (ECS.entities w !! this) as [self|] eqn:Hself;
      [|by rewrite addComponent_no_object].
    destruct (ECS.components w !! n) as [cls|] eqn:Hn;
      [|by rewrite (addComponent_unregistered _ _ self)].
    rewrite (addComponent_registered _ _ self) by done.
    unfold caches_within. cbn [snd attached set_queries emit set_components
      set_entities ECS.entities ECS.queries].
    apply Forall_fmap. eapply Forall_impl; [exact Hc|]. intros [k q] Hsub.
    unfold compose. cbn [fst snd] in *. rewrite dom_insert_L.
    destruct (componentAddedToEntity_cases q (attach_to self n props)) as [->| ->].
    + etransitivity; [exact Hsub|]. apply union_subseteq_r.
    + cbn [set_cache Query.entities attach_to Entity.id]. rewrite dom_insert_L.
      rewrite (wf_id _ Hw _ _ Hself).
      apply union_least; [apply union_subseteq_l|].
      etransitivity; [exact Hsub|apply union_subseteq_r].
  - destruct (ECS.entities w !! this) as [self|] eqn:Hself;
      [|by rewrite removeComponent_no_object].
    destruct (Entity.root self !! n) as [x|] eqn:Hr;
      [|by rewrite (removeComponent_not_held _ _ self)].
    assert (dom (ECS.entities w) ⊆ dom (<[this := detach_from self n]> (ECS.entities w)))
      as Hd by (rewrite dom_insert_L; apply union_subseteq_r).
    destruct (ECS.components w !! n) as [cls|] eqn:Hn.
    + destruct (removeComponent_held w this self n) as (c' & -> & _); [done..|].
      unfold caches_within. cbn [snd set_queries ECS.queries ECS.entities].
      apply (refresh_queries_using_Forall
               (λ q, dom (Query.entities q)
                     ⊆ dom (ECS.entities (detached w this self n)))).
      * intros q _. apply refresh_within.
      * eapply Forall_impl; [exact Hc|]. intros [k q] Hsub. cbn in *.
        by etransitivity.
    + rewrite (removeComponent_held_unregistered _ _ self) by done.
      by apply (caches_within_grow w).
  - destruct (assoc (logic_key logic) (ECS.queries w)) as [q0|] eqn:Hk.
    + rewrite createQuery_exists by done. by apply (caches_within_grow w).
    + destruct (decide (constructible w logic)) as [Hok|Hok].
      * rewrite createQuery_creates by done.
        apply caches_within_insert; [apply compiled_within|done].
      * rewrite createQuery_throws; [done|done|..]; intros H; apply Hok;
          [by left|by right].
  - destruct (assoc (logic_key logic) (ECS.queries w)) as [q0|] eqn:Hk.
    + by rewrite query_cached.
    + destruct (decide (constructible w logic)) as [Hok|Hok].
      * rewrite query_creates by done.
        apply caches_within_insert; [apply compiled_within|done].
      * rewrite query_throws; [done|done|..]; intros H; apply Hok;
          [by left|by right].
Qed.

Lemma caches_within_run cs w :
  legal cs w = true → wf_world w → caches_within w → caches_within (run cs w).
Proof.
  revert w. induction cs as [|c cs IH]; intros w Hl Hw Hc; [done|].
  cbn [legal] in Hl. apply andb_true_iff in Hl as [Hok Hl].
  rewrite run_cons. apply IH; [done| |].
  - by apply wf_world_exec.
  - by apply caches_within_exec.
Qed.

(** X9.  In every world reached from [new ECS()] by ordinary calls that
    draw unique entity ids, whatever the queries and whether calls
    returned or threw,
    every key of a query cache and every key of a presence table is the id
    of an entity of the world. *)
Theorem cached_ids_are_entities (cs : list Call) :
  legal cs new_ECS = true → ordinary cs = true →
  (∀ k q, (k, q) ∈ ECS.queries (run cs new_ECS) →
     dom (Query.entities q) ⊆ dom (ECS.entities (run cs new_ECS)))
  ∧ (∀ T cls, ECS.components (run cs new_ECS) !! T = Some cls →
       dom (ComponentClass.entities cls) ⊆ dom (ECS.entities (run cs new_ECS))).
Proof.
  intros Hl _. pose proof (wf_world_run cs new_ECS Hl wf_world_new) as Hw. split.
  - assert (caches_within new_ECS) as H0 by constructor.
    pose proof (caches_within_run cs new_ECS Hl wf_world_new H0) as Hc.
    unfold caches_within in Hc. rewrite Forall_forall in Hc.
    intros k q Hin. exact (Hc (k, q) Hin).
  - intros T cls HT id Hid. apply elem_of_dom in Hid.
    apply (wf_presence _ Hw _ _ id HT) in Hid as (e & He & _).
    apply elem_of_dom. by eexists.
Qed.

Lemma cached_ids_are_entities_witness :
  ∃ q, assoc "A" (ECS.queries (run aborted_loop_script new_ECS)) = Some q
       ∧ dom (Query.entities q) ⊆ dom (ECS.entities (run aborted_loop_script new_ECS)).
Proof.
  destruct (cached_ids_are_entities aborted_loop_script) as [Hq _].
  - vm_compute. reflexivity.
  - vm_compute. reflexivity.
  - eexists. split; [vm_compute; reflexivity|].
    apply (Hq "A"). apply assoc_elem_of. vm_compute. reflexivity.
Defined.

(** X10.  A new entity starts outside everything: after [new Entity] with
    a fresh id the entity holds no component, and its id is in no query
    cache and in no presence table, the empty-list query included. *)
Theorem new_entity_in_no_cache (cs : list Call) (id : EntityId) :
  legal (cs ++ [NewEntity id]) new_ECS = true →
  ECS.entities (run (cs ++ [NewEntity id]) new_ECS) !! id = Some (Entity.mk id ∅ ∅)
  ∧ (∀ k q, (k, q) ∈ ECS.queries (run (cs ++ [NewEntity id]) new_ECS) →
       Query.entities q !! id = None)
  ∧ (∀ T cls, ECS.components (run (cs ++ [NewEntity id]) new_ECS) !! T = Some cls →
       ComponentClass.entities cls !! id = None).
Proof.
  intros Hl.
  assert (run (cs ++ [NewEntity id]) new_ECS
          = (new_Entity id (run cs new_ECS)).2) as Hrun.
  { unfold run. by rewrite foldl_app. }
  assert (legal cs new_ECS = true ∧ ECS.entities (run cs new_ECS) !! id = None)
    as [Hl0 Hfresh].
  { clear Hrun. revert Hl. generalize new_ECS.
    induction cs as [|c cs IH]; intros w Hl; cbn [app legal] in Hl.
    - apply andb_true_iff in Hl as [Hok _]. cbn in Hok.
      apply negb_true_iff, js_in_false in Hok. done.
    - apply andb_true_iff in Hl as [Hok Hl]. destruct (IH _ Hl) as [Hl' Hf].
      split; [|by rewrite run_cons]. cbn [legal]. by rewrite Hok, Hl'. }
  pose proof (wf_world_run cs new_ECS Hl0 wf_world_new) as Hw.
  assert (caches_within new_ECS) as H0 by constructor.
  pose proof (caches_within_run cs new_ECS Hl0 wf_world_new H0) as Hc.
  unfold caches_within in Hc. rewrite Forall_forall in Hc.
  rewrite Hrun. unfold new_Entity, addEntity, modify. cbn.
  split; [by rewrite lookup_insert_eq|]. split.
  - intros k q Hin. apply not_elem_of_dom. intros Hid.
    apply (Hc (k, q) Hin) in Hid. apply elem_of_dom in Hid as [e He]. congruence.
  - intros T cls HT. destruct (ComponentClass.entities cls !! id) as [v|] eqn:Hv; [|done].
    destruct (proj1 (wf_presence _ Hw _ _ id HT)) as (e & He & _); [by eexists|].
    congruence.
Qed.

Lemma new_entity_in_no_cache_witness :
  ∃ q, assoc "" (ECS.queries (run (empty_logic_script ++ [NewEntity "e9"]) new_ECS))
       = Some q
       ∧ Query.entities q !! "e9" = None.
Proof.
  destruct (new_entity_in_no_cache empty_logic_script "e9") as (_ & Hq & _).
  - vm_compute. reflexivity.
  - eexists. split; [vm_compute; reflexivity|].
    apply (Hq ""). apply assoc_elem_of. vm_compute. reflexivity.
Defined.

(** ** Caches hold matching entities only *)

Lemma query_sound_mono w w' q :
  ECS.entities w' = ECS.entities w →
  (∀ n, is_Some (ECS.components w !! n) → is_Some (ECS.components w' !! n)) →
  query_sound w q → query_sound w' q.
Proof.
  intros He Hc [H1 H2 H3]. split; [done| |].
  - eapply Forall_impl; [exact H2|]. intros n. apply Hc.
  - by rewrite (matching_ext w w').
Qed.

Lemma wf_sound_frame w w' :
  ECS.entities w' = ECS.entities w →
  (∀ n, is_Some (ECS.components w !! n) → is_Some (ECS.components w' !! n)) →
  ECS.queries w' = ECS.queries w →
  wf_sound w → wf_sound w'.
Proof.
  intros He Hc Hq Hw. unfold wf_sound. rewrite Hq.
  eapply Forall_impl; [exact Hw|]. intros [k q]. by apply query_sound_mono.
Qed.

Lemma compiled_sound w logic :
  wf_world w → all_registered w logic → query_sound w (compiled w logic).
Proof.
  intros Hw Hreg. destruct (compiled_ok w logic Hw Hreg) as [H1 H2 _].
  split; [done|done|]. cbn [compiled Query.entities Query.component_names Query.components] in *.
  rewrite H1. by rewrite rebuilt_exact.
Qed.

Lemma wf_sound_insert w k q :
  wf_sound w → query_sound w q → wf_sound (set_queries (assoc_set k q) w).
Proof.
  intros Hw Hq. unfold wf_sound. cbn [set_queries ECS.queries].
  apply Forall_forall. intros x Hx. apply elem_of_assoc_set in Hx as [->|Hx].
  - by apply (query_sound_mono w).
  - unfold wf_sound in Hw. rewrite Forall_forall in Hw.
    apply (query_sound_mono w); [done|done|]. by apply Hw.
Qed.

Lemma query_sound_attached w this self k props q :
  wf_world w → ECS.entities w !! this = Some self →
  query_sound w q →
  query_sound (attached w this self k props)
              (componentAddedToEntity q (attach_to self k props)).
Proof.
  intros Hw Hself [H1 H2 H3].
  destruct (componentAddedToEntity_meta q (attach_to self k props)) as (Hc & Hn & _).
  split; rewrite ?Hc, ?Hn; [done| |].
  - eapply Forall_impl; [exact H2|]. intros n Hreg.
    cbn [attached set_queries emit set_components set_entities ECS.components].
    by apply is_Some_mark_present.
  - rewrite (matching_attached _ _ _ _ _ _ Hself).
    destruct (componentAddedToEntity_writes q (attach_to self k props))
      as [->|(_ & Hall & ->)]; [by rewrite H1, length_fmap| |].
    + case_decide; [|done]. etransitivity; [exact H3|apply union_subseteq_r].
    + rewrite decide_True by done. cbn [set_cache Query.entities].
      rewrite dom_insert_L. cbn [attach_to Entity.id].
      rewrite (wf_id _ Hw _ _ Hself).
      apply union_least; [apply union_subseteq_l|].
      etransitivity; [exact H3|apply union_subseteq_r].
Qed.

Lemma query_sound_detached w this self k q :
  wf_world w → ECS.entities w !! this = Some self →
  query_sound w q →
  query_sound (detached w this self k)
              (if includes (Query.component_names q) k
               then set_cache (rebuilt (detached w this self k) (Query.components q)) q
               else q).
Proof.
  intros Hw Hself [H1 H2 H3].
  assert (Forall (λ n, is_Some (ECS.components (detached w this self k) !! n))
                 (Query.component_names q)) as Hreg.
  { eapply Forall_impl; [exact H2|]. intros n Hn.
    cbn [detached set_components set_entities ECS.components].
    by apply is_Some_mark_absent. }
  destruct (includes (Query.component_names q) k) eqn:Hin.
  - split; cbn [set_cache Query.components Query.component_names Query.entities];
      [done|done|].
    rewrite H1, rebuilt_exact; [done| |done]. by apply wf_world_detached.
  - split; [done|done|]. rewrite matching_detached; [done|done|].
    unfold includes in Hin. by apply bool_decide_eq_false in Hin.
Qed.

Lemma wf_sound_exec c w :
  call_ok c w = true → call_resolving c w = true →
  wf_world w → wf_queries w → wf_sound w → wf_sound (exec c w).
Proof.
  intros Hok Hres Hw Hq Hs.
  destruct c as [s|n|id|this n props|this n|logic|logic]; cbn [exec].
  - destruct (registerSystem_frame w s) as (He & Hc & Hqs).
    apply (wf_sound_frame w); [done| |done|done]. intros m. by rewrite Hc.
  - destruct (ECS.components w !! n) as [cls|] eqn:Hn.
    + rewrite registerComponent_again by done. by apply (wf_sound_frame w).
    + rewrite registerComponent_fresh by done.
      apply (wf_sound_frame w); [done| |done|done].
      intros m Hm. cbn. rewrite lookup_insert. by case_decide.
  - cbn in Hok. apply negb_true_iff, js_in_false in Hok.
    unfold new_Entity, addEntity, modify, wf_sound. cbn.
    eapply Forall_impl; [exact Hs|]. intros [k q] [H1 H2 H3].
    split; [done|done|]. etransitivity; [exact H3|]. intros i.
    rewrite !elem_of_matching. cbn. intros (e & He & Hall). exists e.
    split; [|done]. rewrite lookup_insert_ne; [done|]. intros ->. congruence.
  - destruct (ECS.entities w !! this) as [self|] eqn:Hself;
      [|by rewrite addComponent_no_object].
    destruct (ECS.components w !! n) as [cls|] eqn:Hn;
      [|by rewrite (addComponent_unregistered _ _ self)].
    rewrite (addComponent_registered _ _ self) by done.
    unfold wf_sound. cbn [snd attached set_queries ECS.queries emit set_components
      set_entities].
    apply Forall_fmap. eapply Forall_impl; [exact Hs|]. intros [k q] Hsound.
    unfold compose. cbn [fst snd]. by apply query_sound_attached.
  - destruct (ECS.entities w !! this) as [self|] eqn:Hself;
      [|by rewrite removeComponent_no_object].
    destruct (Entity.root self !! n) as [x|] eqn:Hr;
      [|by rewrite (removeComponent_not_held _ _ self)].
    assert (is_Some (ECS.components w !! n)) as Hn.
    { eapply (wf_held _ Hw); [exact Hself|].
      rewrite <- (wf_root _ Hw _ _ Hself). by eexists. }
    destruct (removeComponent_held w this self n) as (c' & -> & _); [done..|].
    cbn [snd]. unfold wf_sound. cbn [set_queries ECS.queries].
    rewrite refresh_queries_using_resolved.
    + cbn [snd]. apply Forall_fmap. eapply Forall_impl; [exact Hs|].
      intros [k q] Hsound. unfold compose. cbn [snd fst].
      apply (query_sound_mono (detached w this self n)); [done|done|].
      by apply query_sound_detached.
    + eapply Forall_impl; [exact Hq|]. intros [k q] Hok'. cbn [snd].
      eapply resolves_mono; [|by apply ok_resolves].
      intros m. apply is_Some_mark_absent.
  - apply call_resolving_query in Hres.
    destruct (assoc (logic_key logic) (ECS.queries w)) as [q0|] eqn:Hk.
    + rewrite createQuery_exists by done. by apply (wf_sound_frame w).
    + rewrite createQuery_creates by auto. cbn [snd].
      apply wf_sound_insert; [done|]. by apply compiled_sound.
  - apply call_resolving_query in Hres.
    destruct (assoc (logic_key logic) (ECS.queries w)) as [q0|] eqn:Hk.
    + by rewrite query_cached.
    + rewrite query_creates by auto. cbn [snd].
      apply wf_sound_insert; [done|]. by apply compiled_sound.
Qed.

Lemma wf_sound_run cs w :
  legal cs w = true → resolving cs w = true →
  wf_world w → wf_queries w → wf_sound w → wf_sound (run cs w).
Proof.
  revert w. induction cs as [|c cs IH]; intros w Hl Hr Hw Hq Hs; [done|].
  cbn [legal resolving] in Hl, Hr.
  apply andb_true_iff in Hl as [Hc Hl]. apply andb_true_iff in Hr as [Hc' Hr].
  rewrite run_cons. apply IH; [done|done| | |].
  - by apply wf_world_exec.
  - by apply wf_queries_exec.
  - by apply wf_sound_exec.
Qed.

(** X11.  In every world reached from [new ECS()] by ordinary calls that
    draw unique entity ids and compile queries from registered names only,
    every id in
    the cache of any query, also one on repeated names or on the empty
    list, is the id of an entity that holds a component of every name of
    the query. *)
Theorem cache_sound (cs : list Call) :
  legal cs new_ECS = true → ordinary cs = true → resolving cs new_ECS = true →
  ∀ k q id, (k, q) ∈ ECS.queries (run cs new_ECS) →
    is_Some (Query.entities q !! id) →
    ∃ e, ECS.entities (run cs new_ECS) !! id = Some e
         ∧ holds_all (Query.component_names q) e.
Proof.
  intros Hl _ Hr k q id Hin Hid.
  assert (wf_sound new_ECS) as H0 by constructor.
  pose proof (wf_sound_run cs new_ECS Hl Hr wf_world_new wf_queries_new H0) as Hs.
  unfold wf_sound in Hs. rewrite Forall_forall in Hs.
  apply elem_of_matching. apply (sound_sub _ _ (Hs (k, q) Hin)).
  by apply elem_of_dom.
Qed.

Lemma cache_sound_witness :
  ∃ e, ECS.entities (run rebuilt_repeated_script new_ECS) !! "e1" = Some e
       ∧ holds_all ["A"; "A"] e.
Proof.
  refine (cache_sound rebuilt_repeated_script _ _ _ "A,A"
            (Query.mk [Some "A"; Some "A"] ["A"; "A"] ["A"; "A"] {[ "e1" := VTrue ]})
            "e1" _ _).
  - vm_compute. reflexivity.
  - vm_compute. reflexivity.
  - vm_compute. reflexivity.
  - apply assoc_elem_of. vm_compute. reflexivity.
  - vm_compute. by eexists.
Defined.

(** ** The full rebuild *)

(** X12.  In a world reached from [new ECS()] by ordinary calls that draw
    unique entity ids and compile queries from registered names only, the
    full rebuild of any stored query, also one on repeated names or on the
    empty list, returns, and the keys it leaves
    are exactly the ids of the entities that hold a component of every
    name of the query. *)
Theorem rebuild_exact (cs : list Call) :
  legal cs new_ECS = true → ordinary cs = true → resolving cs new_ECS = true →
  ∀ k q, (k, q) ∈ ECS.queries (run cs new_ECS) →
    (refresh (run cs new_ECS) q).1 = Normal tt
    ∧ dom (Query.entities (refresh (run cs new_ECS) q).2)
      = matching (run cs new_ECS) (Query.component_names q).
Proof.
  intros Hl _ Hr k q Hin.
  destruct (wf_run cs new_ECS Hl Hr wf_world_new wf_queries_new) as [Hw Hq].
  unfold wf_queries in Hq. rewrite Forall_forall in Hq.
  pose proof (Hq (k, q) Hin) as Hok. cbn [snd] in Hok.
  rewrite refresh_resolved by by apply ok_resolves.
  split; [done|]. cbn [snd set_cache Query.entities].
  rewrite (ok_refs _ _ Hok). apply rebuilt_exact; [done|]. apply (ok_registered _ _ Hok).
Qed.

Lemma rebuild_exact_witness :
  ∃ q, assoc "A,A" (ECS.queries (run repeated_name_script new_ECS)) = Some q
       ∧ dom (Query.entities (refresh (run repeated_name_script new_ECS) q).2)
         = matching (run repeated_name_script new_ECS) ["A"; "A"].
Proof.
  eexists. split; [vm_compute; reflexivity|].
  refine (proj2 (rebuild_exact repeated_name_script _ _ _ "A,A" _ _)).
  - vm_compute. reflexivity.
  - vm_compute. reflexivity.
  - vm_compute. reflexivity.
  - apply assoc_elem_of. vm_compute. reflexivity.
Defined.

(** ** Attach, then detach *)

Lemma detach_attach_entity self T props :
  Entity.root self !! T = None → Entity.components self !! T = None →
  detach_from (attach_to self T props) T = self.
Proof.
  intros Hr Hc. destruct self as [i root comps]. unfold detach_from, attach_to. cbn in *.
  by rewrite !delete_insert_id.
Qed.

Lemma mark_absent_present k i cs :
  (∀ cls, cs !! k = Some cls → ComponentClass.entities cls !! i = None) →
  mark_absent k i (mark_present k i cs) = cs.
Proof.
  intros Hi. apply map_eq. intros n. unfold mark_present, mark_absent.
  rewrite !lookup_alter. case_decide; [|done]. subst n.
  rewrite !decide_True by done.
  destruct (cs !! k) as [cls|] eqn:Hk; [|done]. cbn.
  rewrite delete_insert_id by by apply Hi. by destruct cls.
Qed.

(** X13.  In a world reached from [new ECS()] by ordinary calls that draw
    unique entity ids and compile queries from registered names only,
    attaching a registered type of an ordinary name, with an ordinary
    property bag, to an entity that does not hold it and detaching it
    again returns normally and restores the entity table, the presence
    tables and the systems exactly; every stored query is still there with
    its compiled lists, and if its names are pairwise distinct, and at
    least one, its cache has the same keys as before. *)
Theorem attach_detach_restores (cs : list Call) (this : EntityId) (self : Entity.t)
    (T : string) (props : Props) :
  legal cs new_ECS = true → ordinary cs = true → resolving cs new_ECS = true →
  ordinary_class T = true → ordinary_bag props = true →
  ECS.entities (run cs new_ECS) !! this = Some self →
  Entity.components self !! T = None →
  is_Some (ECS.components (run cs new_ECS) !! T) →
  let w := run cs new_ECS in
  let w1 := exec (AddComponent this T props) w in
  let w2 := exec (RemoveComponent this T) w1 in
  (removeComponent this T w1).1 = Normal tt
  ∧ ECS.entities w2 = ECS.entities w
  ∧ ECS.components w2 = ECS.components w
  ∧ ECS.systems w2 = ECS.systems w
  ∧ ∀ k q, assoc k (ECS.queries w) = Some q →
      ∃ q', assoc k (ECS.queries w2) = Some q'
            ∧ same_query q q'
            ∧ (NoDup (Query.component_names q) → Query.component_names q ≠ [] →
               dom (Query.entities q') = dom (Query.entities q)).
Proof.
  intros Hl _ Hr _ _ Hself Hnot HT. cbn zeta.
  destruct (wf_run cs new_ECS Hl Hr wf_world_new wf_queries_new) as [Hw Hq].
  remember (run cs new_ECS) as w eqn:Ew.
  remember (exec (AddComponent this T props) w) as w1 eqn:Ew1.
  remember (exec (RemoveComponent this T) w1) as w2 eqn:Ew2.
  assert (w1 = attached w this self T props) as Hw1.
  { rewrite Ew1. cbn [exec]. by rewrite (addComponent_registered _ _ self). }
  assert (wf_world w1 ∧ wf_queries w1) as [Hw1wf Hq1wf].
  { rewrite Hw1. split; [by apply wf_world_attached|by apply wf_queries_attached]. }
  assert (ECS.entities w1 !! this = Some (attach_to self T props)) as Hself1.
  { rewrite Hw1. cbn. by rewrite lookup_insert_eq. }
  assert (is_Some (ECS.components w1 !! T)) as HT1.
  { rewrite Hw1. cbn. by apply is_Some_mark_present. }
  destruct (removeComponent_held w1 this (attach_to self T props) T)
    as (c & Hrem & Hc); [done| |done|].
  { cbn. rewrite lookup_insert_eq. by eexists. }
  assert (wf_world w2 ∧ wf_queries w2) as [Hw2wf Hq2wf].
  { rewrite Ew2. split; [by apply wf_world_exec|by apply wf_queries_exec]. }
  assert (c = Normal tt) as ->.
  { apply Hc. rewrite refresh_queries_using_resolved; [done|].
    eapply Forall_impl; [exact Hq1wf|]. intros [k q] Hok. cbn [snd].
    eapply resolves_mono; [|by apply ok_resolves].
    intros m. apply is_Some_mark_absent. }
  assert (ECS.entities w2 = ECS.entities w) as He2.
  { rewrite Ew2. cbn [exec]. rewrite Hrem. cbn [snd set_queries detached set_components
      set_entities ECS.entities]. rewrite Hw1. cbn [attached set_queries emit
      set_components set_entities ECS.entities].
    rewrite insert_insert_eq, detach_attach_entity; [by apply insert_id| |done].
    by rewrite (wf_root _ Hw _ _ Hself). }
  split; [by rewrite Hrem|]. split; [done|]. split; [|split].
  - rewrite Ew2. cbn [exec]. rewrite Hrem. cbn [snd set_queries detached set_components
      set_entities ECS.components]. rewrite Hw1. cbn [attached set_queries emit
      set_components set_entities ECS.components attach_to Entity.id].
    apply mark_absent_present. intros cls Hcls.
    destruct (ComponentClass.entities cls !! Entity.id self) as [v|] eqn:Hv; [|done].
    destruct (proj1 (wf_presence _ Hw _ _ (Entity.id self) Hcls)) as (e & He & Hh);
      [by eexists|].
    rewrite (wf_id _ Hw _ _ Hself) in He. assert (e = self) as -> by congruence.
    rewrite Hnot in Hh. by destruct Hh.
  - rewrite Ew2. cbn [exec]. rewrite Hrem. cbn. by rewrite Hw1.
  - intros k q Hk.
    destruct (stored_query_run [AddComponent this T props; RemoveComponent this T]
                w k q Hk) as (q' & Hk' & Hsame).
    rewrite !run_cons in Hk'. cbn [run foldl] in Hk'. rewrite <- Ew1, <- Ew2 in Hk'.
    exists q'. split; [done|]. split; [done|]. intros Hnd Hne.
    destruct Hsame as (_ & Hn & _).
    unfold wf_queries in Hq, Hq2wf. rewrite Forall_forall in Hq, Hq2wf.
    pose proof (ok_exact _ _ (Hq (k, q) (assoc_elem_of _ _ _ Hk)) Hnd Hne) as Hx.
    pose proof (ok_exact _ _ (Hq2wf (k, q') (assoc_elem_of _ _ _ Hk'))) as Hx'.
    cbn [snd] in Hx, Hx'. rewrite Hn in Hx'. specialize (Hx' Hnd Hne).
    unfold exact in Hx, Hx'. rewrite Hx, Hx', Hn. by apply matching_ext.
Qed.

Lemma attach_detach_restores_witness :
  ECS.entities (exec (RemoveComponent "e2" "A")
                  (exec (AddComponent "e2" "A" ∅) (run two_types_script new_ECS)))
  = ECS.entities (run two_types_script new_ECS).
Proof.
  assert (ECS.entities (run two_types_script new_ECS) !! "e2"
          = Some (Entity.mk "e2" {[ "B" := Component.mk "B" ∅ (Some "e2") ]}
                                 {[ "B" := Component.mk "B" ∅ (Some "e2") ]})) as H1
    by (vm_compute; reflexivity).
  assert (is_Some (ECS.components (run two_types_script new_ECS) !! "A")) as H2
    by (vm_compute; by eexists).
  assert (ordinary two_types_script = true) as H3 by (vm_compute; reflexivity).
  assert (ordinary_class "A" = true) as H4 by (vm_compute; reflexivity).
  assert (ordinary_bag ∅ = true) as H5 by (vm_compute; reflexivity).
  destruct (attach_detach_restores two_types_script "e2" _ "A" ∅ eq_refl H3 eq_refl
              H4 H5 H1 eq_refl H2) as (_ & He & _).
  exact He.
Defined.

(** ** Systems and their registration hook *)

Lemma registrations_app tr1 tr2 :
  registrations (tr1 ++ tr2) = (registrations tr1 ++ registrations tr2)%list.
Proof. unfold registrations. apply omap_app. Qed.

Lemma exec_registrations c w :
  (∃ s, c = RegisterSystem s ∧ ECS.systems w !! s = None
        ∧ registrations (ECS.trace (exec c w))
          = (registrations (ECS.trace w) ++ [s])%list
        ∧ ECS.systems (exec c w) = <[s := System.mk s]> (ECS.systems w))
  ∨ (registrations (ECS.trace (exec c w)) = registrations (ECS.trace w)
     ∧ ECS.systems (exec c w) = ECS.systems w).
Proof.
  destruct c as [s|n|id|this n props|this n|logic|logic]; cbn [exec].
  - destruct (ECS.systems w !! s) as [x|] eqn:Hs.
    + right. rewrite registerSystem_again by done. cbn.
      by rewrite registrations_app, app_nil_r.
    + left. exists s. rewrite registerSystem_fresh by done. cbn.
      by rewrite registrations_app.
  - right. destruct (ECS.components w !! n) as [cls|] eqn:Hn.
    + rewrite registerComponent_again by done. cbn.
      by rewrite registrations_app, app_nil_r.
    + by rewrite registerComponent_fresh.
  - by right.
  - right. destruct (ECS.entities w !! this) as [self|] eqn:Hself;
      [|by rewrite addComponent_no_object].
    destruct (ECS.components w !! n) as [cls|] eqn:Hn;
      [|by rewrite (addComponent_unregistered _ _ self)].
    rewrite (addComponent_registered _ _ self) by done. cbn.
    by rewrite !registrations_app, !app_nil_r.
  - right. destruct (ECS.entities w !! this) as [self|] eqn:Hself;
      [|by rewrite removeComponent_no_object].
    destruct (Entity.root self !! n) as [x|] eqn:Hr;
      [|by rewrite (removeComponent_not_held _ _ self)].
    destruct (ECS.components w !! n) as [cls|] eqn:Hn.
    + by destruct (removeComponent_held w this self n) as (c' & -> & _).
    + by rewrite (removeComponent_held_unregistered _ _ self).
  - right. destruct (assoc (logic_key logic) (ECS.queries w)) as [q0|] eqn:Hk.
    + rewrite createQuery_exists by done. cbn.
      by rewrite registrations_app, app_nil_r.
    + destruct (decide (constructible w logic)) as [Hok|Hok].
      * by rewrite createQuery_creates.
      * rewrite createQuery_throws; [done|done|..]; intros H; apply Hok;
          [by left|by right].
  - right. destruct (assoc (logic_key logic) (ECS.queries w)) as [q0|] eqn:Hk.
    + by rewrite query_cached.
    + destruct (decide (constructible w logic)) as [Hok|Hok].
      * by rewrite query_creates.
      * rewrite query_throws; [done|done|..]; intros H; apply Hok;
          [by left|by right].
Qed.

(** X14.  In every world reached from [new ECS()], the [onRegistration]
    hook has run exactly once for each system in [ecs.systems] and for
    nothing else, rejected registrations included; and a system is stored
    under the name of its class. *)
Theorem onRegistration_once (cs : list Call) :
  NoDup (registrations (ECS.trace (run cs new_ECS)))
  ∧ (∀ s, s ∈ registrations (ECS.trace (run cs new_ECS))
          ↔ is_Some (ECS.systems (run cs new_ECS) !! s))
  ∧ (∀ s sys, ECS.systems (run cs new_ECS) !! s = Some sys → System.class_name sys = s).
Proof.
  assert (∀ w,
    (NoDup (registrations (ECS.trace w))
     ∧ (∀ s, s ∈ registrations (ECS.trace w) ↔ is_Some (ECS.systems w !! s))
     ∧ (∀ s sys, ECS.systems w !! s = Some sys → System.class_name sys = s)) →
    NoDup (registrations (ECS.trace (run cs w)))
    ∧ (∀ s, s ∈ registrations (ECS.trace (run cs w)) ↔ is_Some (ECS.systems (run cs w) !! s))
    ∧ (∀ s sys, ECS.systems (run cs w) !! s = Some sys → System.class_name sys = s))
    as Hrun.
  { induction cs as [|c cs IH]; intros w Hinv; [done|].
    rewrite run_cons. apply IH. destruct Hinv as (Hnd & Hiff & Hname).
    destruct (exec_registrations c w) as [(s & -> & Hs & -> & ->)|[-> ->]]; [|done].
    split; [|split].
    - apply NoDup_app. split; [done|]. split; [|apply NoDup_singleton].
      intros x Hx Hx'. apply list_elem_of_singleton in Hx' as ->.
      apply Hiff in Hx. rewrite Hs in Hx. by destruct Hx.
    - intros x. rewrite elem_of_app, list_elem_of_singleton, lookup_insert.
      case_decide as Hx.
      + subst x. split; [by eexists|by right].
      + rewrite Hiff. split; [by intros [?|?]|by left].
    - intros x sys. rewrite lookup_insert. case_decide; [|by apply Hname].
      subst x. by intros [= <-]. }
  apply Hrun. split; [constructor|]. split.
  - intros s. cbn. rewrite lookup_empty. split; [by intros ?%elem_of_nil|by intros [? ?]].
  - intros s sys. cbn. by rewrite lookup_empty.
Qed.
